(** * Outbound calling system: call lifecycle, store and success classifier

    A shallow embedding of the call lifecycle code of the repository
    ([app.py], [src/core/services.py], [src/utils/validators.py],
    [src/web/routes.py]) together with the properties of its
    specification that were checked against it. *)

From Stdlib Require Import ZArith Lia Ascii DecimalString.
From stdpp Require Import gmap strings list sorting.

Local Open Scope Z_scope.

(** ** Python strings

    A Python [str] is modelled as a [string] over the 8-bit [ascii] type,
    read as the code points U+0000..U+00FF. *)
Module Py.

(** [str.lower()] on one code point below U+0100: the letters A-Z and
    the Latin-1 capitals (U+00C0..U+00DE without the multiplication
    sign U+00D7) move up by 32, every other code point is kept. *)
Definition lower_char (c : ascii) : ascii :=
  let n := N_of_ascii c in
  if ((65 <=? n) && (n <=? 90) ||
      (192 <=? n) && (n <=? 222) && negb (n =? 215))%N
  then ascii_of_N (n + 32) else c.

Fixpoint lower (s : string) : string :=
  match s with
  | EmptyString => EmptyString
  | String c s' => String (lower_char c) (lower s')
  end.

(** [s.startswith(p)] *)
Fixpoint startswith (s p : string) : bool :=
  match p, s with
  | EmptyString, _ => true
  | String _ _, EmptyString => false
  | String a p', String b s' => if Ascii.eqb a b then startswith s' p' else false
  end.

(** [p in s] for two strings: [p] starts at some offset of [s]. *)
Fixpoint contains (p s : string) : bool :=
  startswith s p ||
  match s with
  | EmptyString => false
  | String _ s' => contains p s'
  end.

(** [bool(s)] for a string or [None]: only a non-empty string is truthy. *)
Definition truthy (s : option string) : bool :=
  match s with
  | Some (String _ _) => true
  | _ => false
  end.

(** [str.isspace()] on one code point below U+0100. *)
Definition isspace (c : ascii) : bool :=
  let n := N_of_ascii c in
  ((9 <=? n) && (n <=? 13) || (28 <=? n) && (n <=? 32) ||
   (n =? 133) || (n =? 160))%N.

Fixpoint lstrip (s : string) : string :=
  match s with
  | EmptyString => EmptyString
  | String c s' => if isspace c then lstrip s' else s
  end.

(** [s.rstrip()], by recursion from the right end. *)
Fixpoint rstrip (s : string) : string :=
  match s with
  | EmptyString => EmptyString
  | String c s' =>
      match rstrip s' with
      | EmptyString => if isspace c then EmptyString else String c EmptyString
      | r => String c r
      end
  end.

Definition strip (s : string) : string := rstrip (lstrip s).

End Py.

(** ** The transcript classifier ([analyze_call_success]) *)
Module Classifier.

(** [sum(1 for phrase in phrases if phrase in transcript_lower)] *)
Fixpoint score (phrases : list string) (transcript_lower : string) : nat :=
  match phrases with
  | [] => 0%nat
  | phrase :: rest =>
      ((if Py.contains phrase transcript_lower then 1 else 0)
       + score rest transcript_lower)%nat
  end.

(** The body shared by [analyze_call_success] of [app.py] and
    [CallService._analyze_call_success] of [services.py]; the two differ
    in their phrase lists only. The transcript is a string or [None]. *)
Definition analyze (success_phrases failure_phrases : list string)
    (transcript : option string) : bool :=
  if negb (Py.truthy transcript) then false
  else
    let transcript_lower := Py.lower (default "" transcript) in
    let success_score := score success_phrases transcript_lower in
    let failure_score := score failure_phrases transcript_lower in
    (failure_score <? success_score)%nat.

End Classifier.

(** ** [app.py]: the SQLite store, the provider results and the routes *)
Module App.

(** *** Values held in rows and dictionaries

    The Python values handed to SQLite and read back from it: [None], a
    [str], an [int] and a [bool]. [VTime t] stands for the text of a
    timestamp ([datetime.now().isoformat()] or SQLite's
    [CURRENT_TIMESTAMP]), as seconds on one common clock. [VBool b] in a
    column of numeric affinity stands for the 0 or 1 that SQLite keeps
    for it. *)
Inductive value :=
| VNone
| VStr (s : string)
| VInt (n : Z)
| VBool (b : bool)
| VTime (t : Z).

#[global] Instance value_eq_dec : EqDecision value.
Proof. solve_decision. Defined.

(** A row of table [calls], as [get_call] returns it
    ([dict(zip(columns, row))]): column name to value, NULL as [VNone]. *)
Abbreviation row := (gmap string value).

(** The table, in insertion (rowid) order. *)
Abbreviation table := (list (gmap string value)).

(** The columns of [CREATE TABLE calls]. *)
Definition columns : list string :=
  [ "id"; "phone_number"; "caller_name"; "caller_phone"; "account_action";
    "additional_info"; "status"; "call_id"; "created_at"; "completed_at";
    "duration"; "transcript"; "success"; "error_message" ].

(** The columns declared [NOT NULL]. *)
Definition not_null_columns : list string :=
  [ "phone_number"; "caller_name"; "caller_phone"; "account_action" ].

Definition ids (t : table) : list (option value) := (λ r : row, r !! "id") <$> t.

(** [id TEXT PRIMARY KEY]: no two rows have the same identifier. A
    primary key that is not an INTEGER may be NULL, in any number of
    rows. *)
Definition keys_unique (t : table) : Prop :=
  NoDup (List.filter (λ i, negb (bool_decide (i = Some VNone))) (ids t)).

(** A Python [int] is bound as an SQLite INTEGER; outside the signed 64
    bits [sqlite3] raises [OverflowError]. *)
Definition int64 (n : Z) : bool := (- 2 ^ 63 <=? n) && (n <? 2 ^ 63).

Definition overflows (v : value) : bool :=
  match v with
  | VInt n => negb (int64 n)
  | _ => false
  end.

(** The text form of an integer. *)
Definition decimal (n : Z) : string := NilZero.string_of_int (Z.to_int n).

(** The columns declared TIMESTAMP, INTEGER and BOOLEAN have numeric
    affinity; all the others are declared TEXT. *)
Definition numeric_columns : list string :=
  [ "created_at"; "completed_at"; "duration"; "success" ].

(** What a column of TEXT affinity keeps for a bound value: a number is
    converted into its text form, a [bool] being bound as 0 or 1. *)
Definition as_text (v : value) : value :=
  match v with
  | VInt n => VStr (decimal n)
  | VBool b => VStr (if b then "1" else "0")
  | _ => v
  end.

(** What the column [k] keeps for a bound value. A column of numeric
    affinity converts a text that reads as a number into that number and
    keeps any other text; the model does not follow that conversion and
    has no answer, [None], for a [str] there. *)
Definition stored (k : string) (v : value) : option value :=
  if bool_decide (k ∈ numeric_columns)
  then match v with
       | VStr _ => None
       | _ => Some v
       end
  else Some (as_text v).

(** [WHERE id = ?] *)
Definition has_id (call_id : string) (r : row) : bool :=
  bool_decide (r !! "id" = Some (VStr call_id)).

Definition sets_null (updates : gmap string value) (k : string) : bool :=
  bool_decide (updates !! k = Some VNone).

(** What [cursor.execute] does with a statement: it runs and leaves a
    table, or it raises and the transaction is rolled back; or the model
    has no answer. *)
Inductive outcome :=
| Ran (t : table)
| Raised
| NotModelled.

(** [cursor.execute("UPDATE calls SET k1 = ?, ... WHERE id = ?")] for the
    clauses built from [updates.items()]. An empty SET list is a syntax
    error. Each key is put into the statement as SQL text: the model
    covers the keys that are the column names as [CREATE TABLE] spells
    them, and has no answer for any other text (another spelling of a
    column, a quoted name, [rowid], a name that is no column). An [int]
    outside 64 bits raises when it is bound. A statement that would
    store NULL in a [NOT NULL] column or a second row under one primary
    key fails its constraint. A statement that runs assigns, in every
    row selected by the WHERE clause, what each column keeps for the
    value given, and nothing else. *)
Definition execute_update (updates : gmap string value) (call_id : string)
    (t : table) : outcome :=
  if bool_decide (updates = ∅) then Raised
  else if negb (forallb (λ k, bool_decide (k ∈ columns)) (elements (dom updates)))
  then NotModelled
  else if existsb overflows ((map_to_list updates).*2) then Raised
  else if negb (forallb (λ kv : string * value, bool_decide (is_Some (stored kv.1 kv.2)))
                  (map_to_list updates))
  then NotModelled
  else
    let kept : gmap string value := map_imap stored updates in
    let t' := (λ r : row, if has_id call_id r then kept ∪ r else r) <$> t in
    if existsb (has_id call_id) t &&
       (existsb (sets_null kept) not_null_columns ||
        bool_decide ("id" ∈ dom kept) && negb (bool_decide (keys_unique t')))
    then Raised
    else Ran t'.

(** [CallDatabase.update_call]: an exception is caught and logged, the
    transaction is not committed, and [False] is returned. [None] where
    the model has no answer. *)
Definition update_call (call_id : string) (updates : gmap string value)
    (t : table) : option (table * bool) :=
  match execute_update updates call_id t with
  | Ran t' => Some (t', true)
  | Raised => Some (t, false)
  | NotModelled => None
  end.

(** The three parameters of the INSERT that have a default in
    [save_call]: [call_data.get('additional_info', '')],
    [call_data.get('status', 'pending')], [call_data.get('call_id', '')]. *)
Definition optional_parameters (call_data : gmap string value) : list value :=
  [ default (VStr "") (call_data !! "additional_info");
    default (VStr "pending") (call_data !! "status");
    default (VStr "") (call_data !! "call_id") ].

(** The row that [INSERT INTO calls (...) VALUES (?, ?, ?, ?, ?, ?, ?, ?)]
    adds for the parameters [i], [pn], [cn], [cp], [aa] and the three
    optional ones: the eight columns have TEXT affinity, [created_at]
    defaults to [CURRENT_TIMESTAMP], the columns left out are NULL. *)
Definition inserted_row (now : Z) (call_data : gmap string value)
    (i pn cn cp aa : value) : row :=
  list_to_map
    [ ("id", as_text i); ("phone_number", as_text pn);
      ("caller_name", as_text cn); ("caller_phone", as_text cp);
      ("account_action", as_text aa);
      ("additional_info",
       as_text (default (VStr "") (call_data !! "additional_info")));
      ("status", as_text (default (VStr "pending") (call_data !! "status")));
      ("call_id", as_text (default (VStr "") (call_data !! "call_id")));
      ("created_at", VTime now); ("completed_at", VNone);
      ("duration", VNone); ("transcript", VNone); ("success", VNone);
      ("error_message", VNone) ].

(** [CallDatabase.save_call]: a missing key of [call_data] raises
    [KeyError], an [int] outside 64 bits raises [OverflowError], a NULL
    in a [NOT NULL] column or a primary key already present raises
    [sqlite3.IntegrityError]; all are caught. *)
Definition save_call (now : Z) (call_data : gmap string value) (t : table)
    : table * bool :=
  match call_data !! "id", call_data !! "phone_number",
        call_data !! "caller_name", call_data !! "caller_phone",
        call_data !! "account_action" with
  | Some i, Some pn, Some cn, Some cp, Some aa =>
      if existsb overflows ([i; pn; cn; cp; aa] ++ optional_parameters call_data) ||
         bool_decide (VNone ∈ [pn; cn; cp; aa]) ||
         negb (bool_decide (i = VNone)) && bool_decide (Some (as_text i) ∈ ids t)
      then (t, false)
      else (t ++ [inserted_row now call_data i pn cn cp aa], true)
  | _, _, _, _, _ => (t, false)
  end.

(** [CallDatabase.get_call]: [cursor.fetchone()] of [WHERE id = ?]. *)
Definition get_call (call_id : string) (t : table) : option row :=
  head (List.filter (has_id call_id) t).

(** The status column of the row of a call. *)
Definition status_of (call_id : string) (t : table) : option value :=
  r ← get_call call_id t; r !! "status".

(** *** Results of the provider client [SynthflowAPI] *)

(** [SynthflowAPI.create_call]: [{"error": msg}], or a success
    dictionary whose ["call_id"] entry is [result.get('call_id')]. *)
Inductive create_result :=
| CreateError (msg : string)
| CreateOk (call_id : option string).

(** [SynthflowAPI.get_call_status]: [{"error": msg}], or the decoded
    body. [calls] is [status_result['response']['calls']] when both keys
    are there, each entry given by its ["status"] field when it has
    one; [duration] is the entry of the key ["duration"] when the body
    has one, which is null ([Some None]) or an integer. *)
Inductive status_result :=
| StatusError (msg : string)
| StatusOk (calls : option (list (option string))) (duration : option (option Z)).

(** [SynthflowAPI.get_call_transcript]: [{"error": msg}] or
    [{"transcript": text}], the text being a string or null. *)
Inductive transcript_result :=
| TranscriptError (msg : string)
| TranscriptOk (text : option string).

(** What one iteration of the poll loop reads from outside: the clock
    and the answers of the provider to its two requests. *)
Record poll := {
  p_now : Z;
  p_status : status_result;
  p_transcript : transcript_result
}.

(** *** The process state: the table and the events sent to the dashboard *)
Record event := { ev_call_id : string; ev_status : string }.

Record world := { db : table; emitted : list event }.

(** [db.update_call(call_id, updates)], its result dropped. The calls
    of this file pass names of columns, and for each column a value of
    the kind it keeps, so that [update_call] has an answer
    ([db_update_is_modelled] below). *)
Definition db_update (call_id : string) (updates : list (string * value))
    (w : world) : world :=
  {| db := match update_call call_id (list_to_map updates) (db w) with
           | Some (t, _) => t
           | None => db w
           end;
     emitted := emitted w |}.

(** [socketio.emit('call_update', {...})] *)
Definition emit (call_id status : string) (w : world) : world :=
  {| db := db w; emitted := emitted w ++ [ {| ev_call_id := call_id; ev_status := status |} ] |}.

(** *** [analyze_call_success] *)
Definition success_phrases : list string :=
  [ "account adjusted"; "adjustment made"; "change completed";
    "updated successfully"; "modification complete"; "done";
    "processed"; "completed"; "confirmed"; "yes, that's done" ].

Definition failure_phrases : list string :=
  [ "cannot do that"; "unable to"; "not authorized"; "need verification";
    "callback required"; "supervisor needed"; "system down" ].

(** [analyze_call_success(transcript, call_id)]; [call_id] is unused. *)
Definition analyze_call_success (transcript : option string) (call_id : string)
    : bool :=
  Classifier.analyze success_phrases failure_phrases transcript.

(** *** [monitor_call_progress] *)
Definition max_polls : nat := 12.

(** The local variables of the loop. *)
Record monitor := { poll_count : nat; last_status : option string }.

Definition finished_statuses : list string :=
  [ "completed"; "failed"; "no_answer"; "busy" ].

(** The status read out of a poll answer, ["unknown"] by default. *)
Definition extract_status (calls : option (list (option string))) : string :=
  match calls with
  | Some (c :: _) => default "unknown" c
  | _ => "unknown"
  end.

Definition opt_str (s : option string) : value :=
  match s with Some x => VStr x | None => VNone end.

(** [status_result.get('duration', 0)] *)
Definition duration_value (duration : option (option Z)) : value :=
  match duration with
  | None => VInt 0
  | Some None => VNone
  | Some (Some n) => VInt n
  end.

Inductive control := Continue | Break.

(** One pass through the body of [while poll_count < max_polls]. *)
Definition monitor_iter (call_id : string) (p : poll) (m : monitor) (w : world)
    : control * monitor * world :=
  let poll_count := S (poll_count m) in
  match p_status p with
  | StatusError _ =>
      let m := {| poll_count := poll_count; last_status := last_status m |} in
      if (3 <? poll_count)%nat then (Break, m, w) else (Continue, m, w)
  | StatusOk calls duration =>
      let call_status := extract_status calls in
      let changed := negb (bool_decide (Some call_status = last_status m)) in
      let m := {| poll_count := poll_count;
                  last_status := if changed then Some call_status else last_status m |} in
      let w := if changed then emit call_id call_status w else w in
      if bool_decide (call_status ∈ finished_statuses) then
        let transcript :=
          match p_transcript p with
          | TranscriptOk text => text
          | TranscriptError _ => Some ""
          end in
        let success := analyze_call_success transcript call_id in
        let w := db_update call_id
                   [ ("status", VStr call_status);
                     ("completed_at", VTime (p_now p));
                     ("duration", duration_value duration);
                     ("transcript", opt_str transcript);
                     ("success", VBool success) ] w in
        (Break, m, emit call_id call_status w)
      else if bool_decide (call_status = "queue") && (6 <=? poll_count)%nat then
        let w := db_update call_id
                   [ ("status", VStr "failed");
                     ("error_message",
                      VStr "Call stuck in queue - likely missing phone number or account issue");
                     ("completed_at", VTime (p_now p)) ] w in
        (Break, m, emit call_id "failed" w)
      else (Continue, m, w)
  end.

(** The [while] loop; [provider k] is what the [k]-th poll reads. Every
    pass adds one to [poll_count], so [max_polls] passes are enough
    ([monitor_loop_fuel] below). *)
Fixpoint monitor_loop (fuel : nat) (call_id : string) (provider : nat → poll)
    (m : monitor) (w : world) : monitor * world :=
  match fuel with
  | O => (m, w)
  | S fuel' =>
      if (poll_count m <? max_polls)%nat then
        match monitor_iter call_id (provider (S (poll_count m))) m w with
        | (Continue, m', w') => monitor_loop fuel' call_id provider m' w'
        | (Break, m', w') => (m', w')
        end
      else (m, w)
  end.

(** The statement after the loop: the timeout mark. *)
Definition monitor_finish (call_id : string) (now : Z) (m : monitor) (w : world)
    : world :=
  if (max_polls <=? poll_count m)%nat &&
     negb (bool_decide (last_status m ∈ (Some <$> finished_statuses)))
  then
    let w := db_update call_id
               [ ("status", VStr "timeout");
                 ("error_message", VStr "Call monitoring timeout");
                 ("completed_at", VTime now) ] w in
    emit call_id "timeout" w
  else w.

(** [monitor_call_progress]. With answers of the shapes above no
    statement of the body raises, so the [except] branch is not
    reached. [end_now] is the clock after the loop. *)
Definition monitor_call_progress (call_id : string) (provider : nat → poll)
    (end_now : Z) (w : world) : monitor * world :=
  let '(m, w) := monitor_loop max_polls call_id provider
                   {| poll_count := 0; last_status := None |} w in
  (m, monitor_finish call_id end_now m w).

(** *** The routes and the background task *)

Inductive response :=
| Success (message : string)
| Created (call_id : string)
| Failure (code : Z) (error : string).

Definition required_fields : list string :=
  [ "phone_number"; "caller_name"; "caller_phone"; "account_action" ].

(** The validation loop of [create_call]: the first field of
    [required_fields] for which [not data.get(field)] holds. The request
    body [data] is a JSON object whose fields are strings. *)
Fixpoint first_missing (data : gmap string string) (fields : list string)
    : option string :=
  match fields with
  | [] => None
  | field :: rest =>
      if negb (Py.truthy (data !! field)) then Some field
      else first_missing data rest
  end.

(** The arguments of the background thread started by [create_call]. *)
Record thread := { th_call_id : string; th_call_data : gmap string value }.

Definition field (data : gmap string string) (k : string) : value :=
  VStr (default "" (data !! k)).

(** The dictionary [call_data] of [create_call]. *)
Definition new_call_data (call_id : string) (data : gmap string string)
    : gmap string value :=
  list_to_map
    [ ("id", VStr call_id);
      ("phone_number", field data "phone_number");
      ("caller_name", field data "caller_name");
      ("caller_phone", field data "caller_phone");
      ("account_action", field data "account_action");
      ("additional_info", field data "additional_info");
      ("status", VStr "initiating") ].

(** [POST /api/calls]. [uuid] is the value of [str(uuid.uuid4())]. The
    provider is not among the arguments: the route talks to the table
    only and hands the call over to [initiate_call_async]. *)
Definition create_call (uuid : string) (now : Z) (data : gmap string string)
    (w : world) : response * world * option thread :=
  match first_missing data required_fields with
  | Some f => (Failure 400 ("Missing required field: " +:+ f), w, None)
  | None =>
      let call_id := uuid in
      let call_data := new_call_data call_id data in
      let '(t, saved) := save_call now call_data (db w) in
      if negb saved then (Failure 500 "Failed to save call to database", w, None)
      else (Created call_id,
            {| db := t; emitted := emitted w |},
            Some {| th_call_id := call_id; th_call_data := call_data |})
  end.

(** [initiate_call_async]: [result] is the answer of the provider to the
    call creation, [now] the clock at the failure marks. *)
Definition initiate_call_async (call_id : string) (result : create_result)
    (now : Z) (provider : nat → poll) (end_now : Z) (w : world) : world :=
  let w := db_update call_id [ ("status", VStr "checking_phone_config") ] w in
  let w := emit call_id "checking_phone_config" w in
  match result with
  | CreateError error_msg =>
      let w := db_update call_id
                 [ ("status", VStr "failed");
                   ("error_message", VStr error_msg);
                   ("completed_at", VTime now) ] w in
      emit call_id "failed" w
  | CreateOk synthflow_call_id =>
      let w := db_update call_id
                 [ ("status", VStr "initiated");
                   ("call_id", opt_str synthflow_call_id) ] w in
      let w := emit call_id "initiated" w in
      if Py.truthy synthflow_call_id &&
         negb (bool_decide (synthflow_call_id = Some "unknown"))
      then (monitor_call_progress call_id provider end_now w).2
      else
        let w := db_update call_id
                   [ ("status", VStr "failed");
                     ("error_message", VStr "No valid call ID returned from Synthflow");
                     ("completed_at", VTime now) ] w in
        emit call_id "failed" w
  end.

(** [POST /api/calls/<call_id>/terminate]: [SynthflowAPI.terminate_call]
    only logs and answers [{"success": True, ...}], so the route always
    takes its first branch. *)
Definition terminate_call (call_id : string) (now : Z) (w : world)
    : response * world :=
  let w := db_update call_id
             [ ("status", VStr "terminated"); ("completed_at", VTime now) ] w in
  (Success "Call terminated successfully", emit call_id "terminated" w).

(** The WHERE clause of [cleanup_stuck_calls]: thirty minutes are 1800
    seconds. *)
Definition stuck (now : Z) (r : row) : bool :=
  bool_decide (r !! "status" ∈ [Some (VStr "in_progress"); Some (VStr "dialing")]) &&
  match r !! "created_at" with
  | Some (VTime created_at) => created_at <? now - 1800
  | _ => false
  end.

(** [POST /api/calls/cleanup]: one UPDATE statement; the result carries
    [cursor.rowcount]. *)
Definition cleanup_stuck_calls (now : Z) (w : world) : nat * world :=
  (length (List.filter (stuck now) (db w)),
   {| db := (λ r : row,
               if stuck now r
               then <["completed_at" := VTime now]> (<["status" := VStr "timeout"]> r)
               else r) <$> db w;
      emitted := emitted w |}).

End App.

(** ** [src/utils/validators.py] *)
Module Validators.

Definition is_digit (c : ascii) : bool :=
  let n := N_of_ascii c in ((48 <=? n) && (n <=? 57))%N.

(** [re.sub(r'[^\d+]', '', phone)]: digits and plus signs are kept. *)
Fixpoint cleaned (phone : string) : string :=
  match phone with
  | EmptyString => EmptyString
  | String c rest =>
      if is_digit c || Ascii.eqb c "+" then String c (cleaned rest) else cleaned rest
  end.

Fixpoint all_digits (s : string) : bool :=
  match s with
  | EmptyString => true
  | String c rest => is_digit c && all_digits rest
  end.

(** [[0-9]{10,14}$] *)
Definition digits_10_14 (s : string) : bool :=
  all_digits s && (10 <=? String.length s)%nat && (String.length s <=? 14)%nat.

(** What may be left for [[0-9]{10,14}$] once the optional group
    [(\+?1?)?] has taken nothing, a plus sign, a one, or both. *)
Definition after_prefix (s : string) : list string :=
  s ::
  match s with
  | String "+" (String "1" r as r1) => [r1; r]
  | String "+" r => [r]
  | String "1" r => [r]
  | _ => []
  end.

(** [validate_phone_number] *)
Definition validate_phone_number (phone : string) : bool :=
  if negb (Py.truthy (Some phone)) then false
  else existsb digits_10_14 (after_prefix (cleaned phone)).

Definition required_fields : list string :=
  [ "caller_name"; "caller_phone"; "phone_number"; "account_action" ].

(** [not data.get(field) or not str(data[field]).strip()], for a request
    body [data] whose fields are strings. *)
Definition is_empty (data : gmap string string) (field : string) : bool :=
  negb (Py.truthy (data !! field)) ||
  negb (Py.truthy (Some (Py.strip (default "" (data !! field))))).

Fixpoint required_errors (data : gmap string string) (fields : list string)
    : list string :=
  match fields with
  | [] => []
  | field :: rest =>
      (if is_empty data field then [field +:+ " is required"] else [])
      ++ required_errors data rest
  end.

Definition too_long (data : gmap string string) (field : string) (n : nat) : bool :=
  Py.truthy (data !! field) && (n <? String.length (default "" (data !! field)))%nat.

Definition bad_phone (data : gmap string string) (field : string) : bool :=
  Py.truthy (data !! field) && negb (validate_phone_number (default "" (data !! field))).

(** [validate_call_request]: the list [errors], in the order of the
    [append] calls. *)
Definition validate_call_request (data : gmap string string) : list string :=
  required_errors data required_fields
  ++ (if bad_phone data "caller_phone"
      then ["caller_phone must be a valid phone number"] else [])
  ++ (if bad_phone data "phone_number"
      then ["phone_number must be a valid phone number"] else [])
  ++ (if too_long data "caller_name" 100
      then ["caller_name must be less than 100 characters"] else [])
  ++ (if too_long data "account_action" 1000
      then ["account_action must be less than 1000 characters"] else [])
  ++ (if too_long data "additional_info" 2000
      then ["additional_info must be less than 2000 characters"] else []).

End Validators.

(** ** [src/core/models.py] *)
Module Models.

(** Modelled from the spec: [src/core/models.py] is not among the
    sources. The states are those of the call state machine
    (PENDING, INITIATING, DIALING, IN_PROGRESS and the terminal
    COMPLETED, FAILED, NO_ANSWER, BUSY, TERMINATED, TIMEOUT); the unit
    tests of the models give the first nine with their string values. *)
Inductive CallStatus :=
| PENDING | INITIATING | DIALING | IN_PROGRESS
| COMPLETED | FAILED | NO_ANSWER | BUSY | TERMINATED | TIMEOUT.

#[global] Instance CallStatus_eq_dec : EqDecision CallStatus.
Proof. solve_decision. Defined.

(** [CallStatus(value)]; [None] is the [ValueError] of an unknown value. *)
Definition CallStatus_of_string (s : string) : option CallStatus :=
  if bool_decide (s = "pending") then Some PENDING
  else if bool_decide (s = "initiating") then Some INITIATING
  else if bool_decide (s = "dialing") then Some DIALING
  else if bool_decide (s = "in_progress") then Some IN_PROGRESS
  else if bool_decide (s = "completed") then Some COMPLETED
  else if bool_decide (s = "failed") then Some FAILED
  else if bool_decide (s = "no_answer") then Some NO_ANSWER
  else if bool_decide (s = "busy") then Some BUSY
  else if bool_decide (s = "terminated") then Some TERMINATED
  else if bool_decide (s = "timeout") then Some TIMEOUT
  else None.

(** Modelled from the spec: the caller-supplied request of a call: the
    destination number, the caller's name and number, the account
    action and the optional additional information. *)
Record CallRequest := {
  caller_name : string;
  caller_phone : string;
  phone_number : string;
  account_action : string;
  additional_info : string
}.

(** Modelled from the spec: the mutable record of one call. Times are
    microseconds on the clock of [datetime.now()]. *)
Record Call := {
  id : string;
  request : CallRequest;
  status : CallStatus;
  synthflow_call_id : option string;
  created_at : Z;
  completed_at : option Z;
  duration : option Z;
  transcript : option string;
  success : option bool;
  error_message : option string;
  metadata : gmap string string
}.

(** Modelled from the spec: [Call(id=..., request=...)], a call created
    at request time with status PENDING and nothing else set. *)
Definition new_call (i : string) (r : CallRequest) (now : Z) : Call :=
  {| id := i; request := r; status := PENDING; synthflow_call_id := None;
     created_at := now; completed_at := None; duration := None;
     transcript := None; success := None; error_message := None;
     metadata := ∅ |}.

End Models.

(** ** [src/core/database.py] *)
Module Database.
Import Models.

(** Modelled from the spec: the store [DatabaseService] of
    [src/core/database.py], which is not among the sources: a mapping
    from call identifier to call, with unique keys. *)
Abbreviation store := (gmap string Call).

(** Modelled from the spec: the partial given to [update]; a field
    that is [None] here is absent from the partial. *)
Record partial := {
  u_status : option CallStatus;
  u_synthflow_call_id : option (option string);
  u_completed_at : option (option Z);
  u_duration : option (option Z);
  u_transcript : option (option string);
  u_success : option (option bool);
  u_error_message : option (option string)
}.

(** Modelled from the spec: the partial merge of [update]: a field
    present in the partial is overwritten, an absent one keeps its
    value. *)
Definition merge_call (u : partial) (c : Call) : Call :=
  {| id := id c; request := request c;
     status := default (status c) (u_status u);
     synthflow_call_id := default (synthflow_call_id c) (u_synthflow_call_id u);
     created_at := created_at c;
     completed_at := default (completed_at c) (u_completed_at u);
     duration := default (duration c) (u_duration u);
     transcript := default (transcript c) (u_transcript u);
     success := default (success c) (u_success u);
     error_message := default (error_message c) (u_error_message u);
     metadata := metadata c |}.

(** Modelled from the spec: [save(call) -> ok | DuplicateId]. *)
Definition save_call (c : Call) (s : store) : store * bool :=
  match s !! id c with
  | Some _ => (s, false)
  | None => (<[id c := c]> s, true)
  end.

(** Modelled from the spec: [update(callId, partialFields) -> ok | NotFound]. *)
Definition update_call (call_id : string) (u : partial) (s : store) : store * bool :=
  match s !! call_id with
  | Some c => (<[call_id := merge_call u c]> s, true)
  | None => (s, false)
  end.

(** Modelled from the spec: [get(callId) -> Call | NotFound]. *)
Definition get_call (call_id : string) (s : store) : option Call := s !! call_id.

(** Newest-created first. *)
Definition newer (c1 c2 : Call) : Prop := created_at c2 ≤ created_at c1.

#[global] Instance newer_dec : RelDecision newer.
Proof. intros c1 c2. unfold newer. apply _. Defined.

(** Modelled from the spec: [list(limit, offset, statusFilter?)], the
    calls ordered newest-created first. *)
Definition get_calls (limit offset : nat) (status_filter : option CallStatus)
    (s : store) : list Call :=
  let all := merge_sort newer ((map_to_list s).*2) in
  let kept :=
    match status_filter with
    | Some st => List.filter (λ c, bool_decide (status c = st)) all
    | None => all
    end in
  take limit (drop offset kept).

End Database.

(** ** [src/core/services.py]: [CallService] *)
Module CallService.
Import Models Database.

Definition success_phrases : list string :=
  [ "account adjusted"; "adjustment made"; "change completed";
    "updated successfully"; "modification complete"; "done";
    "processed"; "completed"; "confirmed"; "yes, that's done";
    "request processed"; "change applied"; "update complete" ].

Definition failure_phrases : list string :=
  [ "cannot do that"; "unable to"; "not authorized"; "need verification";
    "callback required"; "supervisor needed"; "system down";
    "not possible"; "denied"; "rejected"; "error occurred" ].

Definition _analyze_call_success (transcript : option string) : bool :=
  Classifier.analyze success_phrases failure_phrases transcript.

Definition get_call (call_id : string) (s : store) : option Call :=
  Database.get_call call_id s.

(** [get_calls]: a filter that is no status value is logged and dropped. *)
Definition get_calls (limit offset : nat) (status_filter : option string)
    (s : store) : list Call :=
  let status_enum :=
    if Py.truthy status_filter
    then CallStatus_of_string (default "" status_filter)
    else None in
  Database.get_calls limit offset status_enum s.

(** [terminate_call]: [False] for an unknown call and for a call that
    is neither dialing nor in progress. *)
Definition terminate_call (call_id : string) (now : Z) (s : store) : store * bool :=
  match get_call call_id s with
  | None => (s, false)
  | Some call =>
      if negb (bool_decide (status call ∈ [DIALING; IN_PROGRESS])) then (s, false)
      else
        let updates :=
          {| u_status := Some TERMINATED; u_synthflow_call_id := None;
             u_completed_at := Some (Some now); u_duration := None;
             u_transcript := None; u_success := None;
             u_error_message := None |} in
        Database.update_call call_id updates s
  end.

(** [_update_call_status]: the status, and the two optional fields when
    they are truthy. *)
Definition _update_call_status (call_id : string) (st : CallStatus)
    (error_message : option string) (completed_at : option Z) (s : store) : store :=
  let updates :=
    {| u_status := Some st; u_synthflow_call_id := None;
       u_completed_at :=
         match completed_at with Some t => Some (Some t) | None => None end;
       u_duration := None; u_transcript := None; u_success := None;
       u_error_message :=
         if Py.truthy error_message then Some error_message else None |} in
  (Database.update_call call_id updates s).1.

(** What [client.get_call_status] gives: an exception, or the decoded body:
    the statuses of [status_result['response']['calls']] when both keys
    are there, and the top-level ["status"] field. *)
Inductive status_answer :=
| StatusRaised
| StatusBody (calls : option (list (option string))) (top_status : option string).

(** What [client.get_call_transcript] gives: an exception, or the body
    with its ["transcript"] entry, a string or null. *)
Inductive transcript_answer :=
| TranscriptRaised
| TranscriptBody (text : option string).

Record poll := {
  p_now : Z;
  p_status : status_answer;
  p_transcript : transcript_answer
}.

(** [_extract_call_status]. [CallStatus(status_str)] raises [ValueError]
    for a string that is no status value, and the function then returns
    FAILED. [values_are_strings] says whether the members of [CallStatus]
    compare equal to their string values, on which the test
    [status_str in CallStatus.__members__.values()] depends; the class is
    declared in [models.py]. *)
Definition _extract_call_status (values_are_strings : bool)
    (calls : option (list (option string))) (top_status : option string)
    : CallStatus :=
  match calls with
  | Some (c :: _) => default FAILED (CallStatus_of_string (default "unknown" c))
  | _ =>
      let status_str := default "unknown" top_status in
      if values_are_strings
      then default FAILED (CallStatus_of_string status_str)
      else FAILED
  end.

(** [_get_call_transcript] *)
Definition _get_call_transcript (a : transcript_answer) : option string :=
  match a with
  | TranscriptBody text => text
  | TranscriptRaised => Some ""
  end.

Definition max_polls : nat := 24.

(** One pass through the body of the loop of [_monitor_call_progress]: a
    raised exception is logged and the loop continues. *)
Definition monitor_iter (values_are_strings : bool) (call_id : string) (p : poll)
    (s : store) : App.control * store :=
  match p_status p with
  | StatusRaised => (App.Continue, s)
  | StatusBody calls top_status =>
      let call_status := _extract_call_status values_are_strings calls top_status in
      let s := _update_call_status call_id call_status None None s in
      if bool_decide (call_status ∈ [COMPLETED; FAILED; NO_ANSWER; BUSY]) then
        let transcript := _get_call_transcript (p_transcript p) in
        let success := _analyze_call_success transcript in
        let final_updates :=
          {| u_status := Some call_status; u_synthflow_call_id := None;
             u_completed_at := Some (Some (p_now p)); u_duration := None;
             u_transcript := Some transcript; u_success := Some (Some success);
             u_error_message := None |} in
        (App.Break, (Database.update_call call_id final_updates s).1)
      else (App.Continue, s)
  end.

(** The loop, with the count of polls made so far. *)
Fixpoint monitor_loop (fuel : nat) (values_are_strings : bool) (call_id : string)
    (provider : nat → poll) (poll_count : nat) (s : store) : nat * store :=
  match fuel with
  | O => (poll_count, s)
  | S fuel' =>
      if (poll_count <? max_polls)%nat then
        match monitor_iter values_are_strings call_id
                (provider (S poll_count)) s with
        | (App.Continue, s') =>
            monitor_loop fuel' values_are_strings call_id provider (S poll_count) s'
        | (App.Break, s') => (S poll_count, s')
        end
      else (poll_count, s)
  end.

(** [_monitor_call_progress]; [end_now] is the clock after the loop. *)
Definition _monitor_call_progress (values_are_strings : bool) (call_id : string)
    (provider : nat → poll) (end_now : Z) (s : store) : store :=
  let '(poll_count, s) :=
    monitor_loop max_polls values_are_strings call_id provider 0 s in
  if (max_polls <=? poll_count)%nat
  then _update_call_status call_id FAILED (Some "Monitoring timeout") (Some end_now) s
  else s.

(** [timedelta(minutes=30)], in microseconds. *)
Definition thirty_minutes : Z := 30 * 60 * 1000000.

Definition is_stuck (cutoff_time : Z) (call : Call) : bool :=
  bool_decide (status call ∈ [DIALING; IN_PROGRESS; INITIATING]) &&
  (created_at call <? cutoff_time).

Definition failed_by_cleanup (at_time : Z) : partial :=
  {| u_status := Some FAILED; u_synthflow_call_id := None;
     u_completed_at := Some (Some at_time); u_duration := None;
     u_transcript := None; u_success := None;
     u_error_message := Some (Some "Call timeout - automatically cleaned up") |}.

(** The second loop of [cleanup_stuck_calls]; [clock k] is what the
    [k]-th call of [datetime.now()] inside the loop returns. *)
Fixpoint cleanup_loop (clock : nat → Z) (k : nat) (stuck_calls : list Call)
    (count : nat) (s : store) : store * nat :=
  match stuck_calls with
  | [] => (s, count)
  | call :: rest =>
      let '(s', ok) := Database.update_call (id call) (failed_by_cleanup (clock k)) s in
      cleanup_loop clock (S k) rest (if ok then S count else count) s'
  end.

(** [cleanup_stuck_calls]; [now] is the clock at the cutoff. *)
Definition cleanup_stuck_calls (now : Z) (clock : nat → Z) (s : store)
    : store * nat :=
  let cutoff_time := now - thirty_minutes in
  let all_calls := get_calls 1000 0 None s in
  let stuck_calls := List.filter (is_stuck cutoff_time) all_calls in
  cleanup_loop clock 0 stuck_calls 0 s.

End CallService.

(** ** [src/web/routes.py] *)
Module Routes.
Import Models.

Inductive response :=
| Initiated (call_id : string)
| ValidationFailed (details : list string)
| ServerError (error : string).

Definition text (data : gmap string string) (k : string) : string :=
  default "" (data !! k).

(** [POST /api/calls]. [initiate_call] is [app.call_service.initiate_call],
    acting on a state [S]; it is reached only by a request without
    validation errors. *)
Definition create_call {S : Type} (initiate_call : Call → S → S * bool)
    (uuid : string) (now : Z) (data : gmap string string) (st : S)
    : response * S :=
  let validation_errors := Validators.validate_call_request data in
  if negb (bool_decide (validation_errors = [])) then
    (ValidationFailed validation_errors, st)
  else
    let call_request :=
      {| caller_name := text data "caller_name";
         caller_phone := text data "caller_phone";
         phone_number := text data "phone_number";
         account_action := text data "account_action";
         additional_info := text data "additional_info" |} in
    let call := new_call uuid call_request now in
    let '(st', ok) := initiate_call call st in
    if ok then (Initiated (id call), st')
    else (ServerError "Failed to initiate call", st').

End Routes.

(** ** Notions used to state the properties *)
Module Spec.

(** [p] occurs in [s]: [s] is some text, then [p], then some text. *)
Definition occurs_in (p s : string) : Prop :=
  ∃ pre post, s = pre +:+ p +:+ post.

(** [present_count s phrases n]: exactly [n] entries of [phrases] occur in
    [s]; an entry counts once, however often it occurs. *)
Inductive present_count (s : string) : list string → nat → Prop :=
| present_nil : present_count s [] 0
| present_hit p ps n :
    occurs_in p s → present_count s ps n → present_count s (p :: ps) (S n)
| present_miss p ps n :
    ¬ occurs_in p s → present_count s ps n → present_count s (p :: ps) n.

(** The number of occurrences of [p] in [s]: the offsets of [s] at which
    [p] starts. *)
Fixpoint occurrences (p s : string) : nat :=
  ((if Py.startswith s p then 1 else 0) +
   match s with
   | EmptyString => 0
   | String _ s' => occurrences p s'
   end)%nat.

(** The occurrences of all the phrases of a list, added up. *)
Definition total_occurrences (phrases : list string) (s : string) : nat :=
  sum_list ((λ p, occurrences p s) <$> phrases).

(** The classifier as the specification words it: more occurrences of
    positive phrases than of negative ones in the lower-cased transcript,
    and false without a transcript. *)
Definition classify_by_occurrences (success_phrases failure_phrases : list string)
    (transcript : option string) : bool :=
  match transcript with
  | None => false
  | Some t =>
      (total_occurrences failure_phrases (Py.lower t)
       <? total_occurrences success_phrases (Py.lower t))%nat
  end.

(** The terminal statuses, as [app.py] writes them. *)
Definition terminal_statuses : list string :=
  [ "completed"; "failed"; "no_answer"; "busy"; "terminated"; "timeout" ].

Definition is_terminal_row (r : gmap string App.value) : Prop :=
  ∃ st, r !! "status" = Some (App.VStr st) ∧ st ∈ terminal_statuses.

(** The terminal states of [CallStatus]. *)
Definition is_terminal (st : Models.CallStatus) : bool :=
  match st with
  | Models.COMPLETED | Models.FAILED | Models.NO_ANSWER | Models.BUSY
  | Models.TERMINATED | Models.TIMEOUT => true
  | _ => false
  end.

(** The [j]-th poll of [monitor_call_progress] reads an answer after which
    the loop goes on: an error, during the first three polls; or a status
    that is not finished and, from the sixth poll on, not "queue". *)
Definition keeps_polling (j : nat) (p : App.poll) : bool :=
  match App.p_status p with
  | App.StatusError _ => (j <=? 3)%nat
  | App.StatusOk calls _ =>
      negb (bool_decide (App.extract_status calls ∈ App.finished_statuses)) &&
      negb (bool_decide (App.extract_status calls = "queue") && (6 <=? j)%nat)
  end.

(** The poll reads the status [s], without an error. *)
Definition reads_status (s : string) (p : App.poll) : Prop :=
  ∃ calls duration,
    App.p_status p = App.StatusOk calls duration ∧ App.extract_status calls = s.

(** The updates that [monitor_call_progress] writes. *)
Definition finished_updates (call_id : string) (p : App.poll) (s : string)
    : list (string * App.value) :=
  let transcript :=
    match App.p_transcript p with
    | App.TranscriptOk text => text
    | App.TranscriptError _ => Some ""
    end in
  [ ("status", App.VStr s);
    ("completed_at", App.VTime (App.p_now p));
    ("duration", App.duration_value
       match App.p_status p with App.StatusOk _ d => d | _ => None end);
    ("transcript", App.opt_str transcript);
    ("success", App.VBool (App.analyze_call_success transcript call_id)) ].

Definition stuck_in_queue_updates (p : App.poll) : list (string * App.value) :=
  [ ("status", App.VStr "failed");
    ("error_message",
     App.VStr "Call stuck in queue - likely missing phone number or account issue");
    ("completed_at", App.VTime (App.p_now p)) ].

(** The table after [UPDATE calls SET ... WHERE id = call_id] has run with
    the given assignments. *)
Definition updated (call_id : string) (updates : list (string * App.value))
    (t : list (gmap string App.value)) : list (gmap string App.value) :=
  (λ r : gmap string App.value,
     if App.has_id call_id r then list_to_map updates ∪ r else r) <$> t.

(** Keys that [db.update_call] may assign without a constraint in the way:
    columns that are neither the primary key nor [NOT NULL]. *)
Definition plain_keys (updates : list (string * App.value)) : bool :=
  forallb (λ k : string,
    bool_decide (k ∈ App.columns) && negb (bool_decide (k = "id")) &&
    negb (bool_decide (k ∈ App.not_null_columns))) (updates.*1).

(** A value that the column [k] keeps as it is given: no number for a
    column of text, no text for a column of numeric affinity. *)
Definition keeps (k : string) (v : App.value) : bool :=
  if bool_decide (k ∈ App.numeric_columns)
  then match v with
       | App.VStr _ => false
       | _ => true
       end
  else match v with
       | App.VInt _ | App.VBool _ => false
       | _ => true
       end.

(** Values that can be bound and that their columns keep as they are
    given. *)
Definition kept_as_given (updates : list (string * App.value)) : bool :=
  forallb (λ kv : string * App.value,
    negb (App.overflows kv.2) && keeps kv.1 kv.2) updates.

(** The duration that the poll reads can be bound to the statement: it is
    absent, null, or an integer of 64 bits. *)
Definition duration_fits (p : App.poll) : bool :=
  match App.p_status p with
  | App.StatusOk _ (Some (Some n)) => App.int64 n
  | _ => true
  end.

(** Every call is stored under its own identifier. *)
Definition store_wf (s : gmap string Models.Call) : Prop :=
  ∀ k c, s !! k = Some c → Models.id c = k.

(** Some non-empty end of [n] is a start of [s]: an occurrence of [n] could
    begin before [s] and run into it. *)
Fixpoint suffix_overlaps (n s : string) : bool :=
  match n with
  | EmptyString => false
  | String _ n' => Py.startswith s n || suffix_overlaps n' s
  end.

(** The check behind the monotonicity of the classifier: once a space and
    a positive phrase are put after a text, no negative phrase runs from
    the text into the addition or lies inside it, and lower-casing leaves
    the addition as it is. *)
Definition spaced_addition_is_neutral (sp fp : list string) : bool :=
  forallb (λ p : string,
    bool_decide (Py.lower (" " +:+ p) = " " +:+ p) &&
    forallb (λ n : string,
      negb (suffix_overlaps n (" " +:+ p) || Py.contains n (" " +:+ p))) fp) sp.

End Spec.

(** ** Concrete requests, rows and provider answers *)
Module Samples.
Import App.

(** The request of the specification's scenario. *)
Definition jane : gmap string string :=
  list_to_map
    [ ("caller_name", "Jane Doe"); ("caller_phone", "+15551112222");
      ("phone_number", "+15553334444"); ("account_action", "close account") ].

(** A request without a destination number and with an empty caller name. *)
Definition two_missing : gmap string string :=
  list_to_map
    [ ("caller_name", ""); ("caller_phone", "+15551112222");
      ("account_action", "close account") ].

Definition call_row (call_id status : string) (created_at : Z) : row :=
  list_to_map
    [ ("id", VStr call_id); ("phone_number", VStr "+15553334444");
      ("caller_name", VStr "Jane Doe"); ("caller_phone", VStr "+15551112222");
      ("account_action", VStr "close account"); ("additional_info", VStr "");
      ("status", VStr status); ("call_id", VStr "prov-1");
      ("created_at", VTime created_at); ("completed_at", VNone);
      ("duration", VNone); ("transcript", VNone); ("success", VNone);
      ("error_message", VNone) ].

Definition world_of (t : table) : world := {| db := t; emitted := [] |}.

(** A poll answered with the status [s]. *)
Definition answers (now : Z) (s : string) : poll :=
  {| p_now := now;
     p_status := StatusOk (Some [Some s]) (Some (Some 42));
     p_transcript := TranscriptOk (Some "Your account has been closed. Confirmed.") |}.

(** A poll that fails. *)
Definition fails (now : Z) : poll :=
  {| p_now := now;
     p_status := StatusError "Failed to get call status: 503";
     p_transcript := TranscriptError "Failed to get transcript: 503" |}.

(** Three answers "ringing", an error at the fourth poll, and "completed"
    for whoever asks later. *)
Definition late_error (k : nat) : poll :=
  if (k <? 4)%nat then answers (Z.of_nat k) "ringing"
  else if (k =? 4)%nat then fails (Z.of_nat k)
  else answers (Z.of_nat k) "completed".

(** Errors at the first three polls, then "completed". *)
Definition three_errors (k : nat) : poll :=
  if (k <=? 3)%nat then fails (Z.of_nat k) else answers (Z.of_nat k) "completed".

(** "queue" at every poll. *)
Definition queued (k : nat) : poll := answers (Z.of_nat k) "queue".

(** "completed" at every poll. *)
Definition completed (k : nat) : poll := answers (Z.of_nat k) "completed".

(** A call that is terminated between two polls: the first poll reads
    "ringing", then the termination route runs, then the next poll reads
    "completed". *)
Definition first_poll : control * monitor * world :=
  monitor_iter "c1" (answers 5 "ringing")
    {| poll_count := 0; last_status := None |}
    (world_of [call_row "c1" "initiated" 0]).

Definition terminated_between_polls : world :=
  (terminate_call "c1" 7 first_poll.2).2.

Definition second_poll : control * monitor * world :=
  monitor_iter "c1" (answers 10 "completed") first_poll.1.2 terminated_between_polls.

(** Calls of the store of [CallService]; times are microseconds. *)
Definition call_of (i : string) (st : Models.CallStatus) (created : Z) : Models.Call :=
  {| Models.id := i;
     Models.request :=
       {| Models.caller_name := "Jane Doe"; Models.caller_phone := "+15551112222";
          Models.phone_number := "+15553334444";
          Models.account_action := "close account"; Models.additional_info := "" |};
     Models.status := st; Models.synthflow_call_id := Some "prov-1";
     Models.created_at := created; Models.completed_at := None;
     Models.duration := None; Models.transcript := None; Models.success := None;
     Models.error_message := None; Models.metadata := ∅ |}.

(** Fifty minutes on the clock. *)
Definition fifty_minutes : Z := 3000000000.

(** One call in progress created forty minutes before [fifty_minutes], one
    created five minutes before it, and a pending one as old as the first. *)
Definition sweep_store : gmap string Models.Call :=
  list_to_map
    [ ("old", call_of "old" Models.IN_PROGRESS 600000000);
      ("new", call_of "new" Models.IN_PROGRESS 2700000000);
      ("waiting", call_of "waiting" Models.PENDING 600000000) ].

End Samples.

(** ** Notions used to state the properties of the lifecycle *)
Module Lifecycle.
Import App.

(** The columns that hold the request of a call, its identifier and its
    creation time. *)
Definition request_columns : list string :=
  [ "id"; "phone_number"; "caller_name"; "caller_phone"; "account_action";
    "additional_info"; "created_at" ].

(** A row after some work for the call [call_id]: the row of another call
    is what it was, and the row of the call has its request columns. *)
Definition row_step (call_id : string) (r r' : row) : Prop :=
  (has_id call_id r = false → r' = r) ∧
  (∀ k, k ∈ request_columns → r' !! k = r !! k).

(** A table after some work for the call [call_id]: the same rows in the
    same order, each related by [row_step]. *)
Definition table_step (call_id : string) (t t' : table) : Prop :=
  Forall2 (row_step call_id) t t'.

(** No key of the assignments is a request column. *)
Definition spares_request (updates : list (string * value)) : bool :=
  forallb (λ k : string, negb (bool_decide (k ∈ request_columns))) (updates.*1).

(** The event of a status of the call. *)
Definition status_event (call_id status : string) : event :=
  {| ev_call_id := call_id; ev_status := status |}.

(** What a poll reads: its status, or nothing when the provider answers
    with an error. *)
Definition read_status (p : poll) : list string :=
  match p_status p with
  | StatusOk calls _ => [extract_status calls]
  | StatusError _ => []
  end.

(** The statuses read by the polls [from + 1] to [from + n]. *)
Definition read_statuses (provider : nat → poll) (from n : nat) : list string :=
  seq (S from) n ≫= λ j, read_status (provider j).

(** The statuses of a list that differ from the one before them, [prev]
    being the one before the first. *)
Fixpoint changes (prev : option string) (l : list string) : list string :=
  match l with
  | [] => []
  | s :: l' =>
      if bool_decide (Some s = prev) then changes prev l'
      else s :: changes (Some s) l'
  end.

(** The last status of a list, [prev] when there is none. *)
Definition last_read (prev : option string) (l : list string) : option string :=
  match last l with
  | Some s => Some s
  | None => prev
  end.

(** No two neighbours of the list are equal. *)
Fixpoint no_repeat (l : list string) : Prop :=
  match l with
  | a :: (b :: _) as l' => a ≠ b ∧ no_repeat l'
  | _ => True
  end.

(** The table after the final update of a poll that reads a finished
    status: the update is written, or it raises, when the duration read
    cannot be bound, and the table stays as it was. *)
Definition finished_table (call_id : string) (p : poll) (s : string) (t : table)
    : table :=
  if Spec.duration_fits p
  then Spec.updated call_id (Spec.finished_updates call_id p s) t
  else t.

(** The updates of the timeout mark of [monitor_call_progress]. *)
Definition timeout_updates (now : Z) : list (string * value) :=
  [ ("status", VStr "timeout");
    ("error_message", VStr "Call monitoring timeout");
    ("completed_at", VTime now) ].

(** The events sent for the status changes among the first [n] polls,
    after those sent before. *)
Definition sent (call_id : string) (provider : nat → poll) (w : world) (n : nat)
    : list event :=
  emitted w ++ (status_event call_id <$> changes None (read_statuses provider 0 n)).

End Lifecycle.

(** * Properties *)

(** ** Strings *)
Section strings.

Lemma append_nil_l (s : string) : "" +:+ s = s.
Proof. reflexivity. Qed.

Lemma append_cons (c : ascii) (s t : string) : String c s +:+ t = String c (s +:+ t).
Proof. reflexivity. Qed.

Lemma append_nil_r (s : string) : s +:+ "" = s.
Proof. induction s as [|c s IH]; [done|]. by rewrite append_cons, IH. Qed.

Lemma append_assoc (a b c : string) : (a +:+ b) +:+ c = a +:+ b +:+ c.
Proof. induction a as [|x a IH]; [done|]. by rewrite !append_cons, IH. Qed.

Lemma lower_append (a b : string) : Py.lower (a +:+ b) = Py.lower a +:+ Py.lower b.
Proof.
  induction a as [|x a IH]; [done|].
  rewrite append_cons. cbn [Py.lower]. by rewrite append_cons, IH.
Qed.

Lemma startswith_nil (s : string) : Py.startswith s "" = true.
Proof. by destruct s. Qed.

Lemma startswith_cons (a b : ascii) (s p : string) :
  Py.startswith (String b s) (String a p) = true ↔ a = b ∧ Py.startswith s p = true.
Proof.
  cbn. destruct (Ascii.eqb_spec a b) as [Heq|Hne].
  - split; [by intros H|by intros [_ H]].
  - split; [done|]. by intros [? _].
Qed.

Lemma startswith_spec (s p : string) :
  Py.startswith s p = true ↔ ∃ post, s = p +:+ post.
Proof.
  revert s. induction p as [|a p IH]; intros s.
  - rewrite startswith_nil. split; [|done]. intros _. by exists s.
  - destruct s as [|b s].
    + cbn. split; [done|]. intros [post H]. by rewrite append_cons in H.
    + rewrite startswith_cons, IH. split.
      * intros [-> [post ->]]. exists post. by rewrite append_cons.
      * intros [post H]. rewrite append_cons in H. injection H as -> ->. eauto.
Qed.

Lemma contains_spec (p s : string) :
  Py.contains p s = true ↔ Spec.occurs_in p s.
Proof.
  unfold Spec.occurs_in. induction s as [|c s IH]; cbn [Py.contains].
  - rewrite orb_false_r, startswith_spec. split.
    + intros [post H]. exists "", post. by rewrite append_nil_l.
    + intros (pre & post & H). destruct pre as [|x pre].
      * rewrite append_nil_l in H. eauto.
      * by rewrite append_cons in H.
  - rewrite orb_true_iff, startswith_spec, IH. split.
    + intros [[post H]|(pre & post & H)].
      * exists "", post. by rewrite append_nil_l.
      * exists (String c pre), post. by rewrite append_cons, H.
    + intros (pre & post & H). destruct pre as [|x pre].
      * left. rewrite append_nil_l in H. eauto.
      * right. rewrite append_cons in H. injection H as -> ->. eauto.
Qed.

Lemma contains_append_l (p t s : string) :
  Py.contains p t = true → Py.contains p (t +:+ s) = true.
Proof.
  rewrite !contains_spec. intros (pre & post & ->).
  exists pre, (post +:+ s). by rewrite !append_assoc.
Qed.

Lemma startswith_append_inv (t s n : string) :
  Py.startswith (t +:+ s) n = true →
  Py.startswith t n = true ∨ Spec.suffix_overlaps n s = true.
Proof.
  revert n. induction t as [|c t IH]; intros n H.
  - rewrite append_nil_l in H. destruct n as [|d n]; [by left|].
    right. cbn [Spec.suffix_overlaps]. by rewrite H.
  - destruct n as [|d n]; [by left|].
    rewrite append_cons in H. apply startswith_cons in H as [-> H].
    destruct (IH _ H) as [H'|H'].
    + left. by apply startswith_cons.
    + right. cbn [Spec.suffix_overlaps]. rewrite H'. apply orb_true_r.
Qed.

Lemma contains_append_inv (t s n : string) :
  Py.contains n (t +:+ s) = true →
  Py.contains n t = true ∨ Spec.suffix_overlaps n s = true ∨ Py.contains n s = true.
Proof.
  induction t as [|c t IH]; intros H.
  - rewrite append_nil_l in H. auto.
  - rewrite append_cons in H. cbn [Py.contains] in H.
    apply orb_true_iff in H as [H|H].
    + rewrite <- append_cons in H.
      destruct (startswith_append_inv _ _ _ H) as [H'|H']; [|auto].
      left. cbn [Py.contains]. by rewrite H'.
    + destruct (IH H) as [H'|H']; [|auto].
      left. cbn [Py.contains]. rewrite H'. apply orb_true_r.
Qed.

End strings.

(** ** The classifier *)
Section classifier.

Lemma score_present (s : string) (phrases : list string) :
  Spec.present_count s phrases (Classifier.score phrases s).
Proof.
  induction phrases as [|p ps IH]; cbn [Classifier.score]; [constructor|].
  destruct (Py.contains p s) eqn:E.
  - apply Spec.present_hit; [by apply contains_spec|done].
  - apply Spec.present_miss; [|done].
    rewrite <- contains_spec. by rewrite E.
Qed.

Lemma present_count_score (s : string) (phrases : list string) (n : nat) :
  Spec.present_count s phrases n → n = Classifier.score phrases s.
Proof.
  induction 1 as [|p ps n Hp _ IH|p ps n Hp _ IH]; cbn [Classifier.score]; [done| |].
  - apply contains_spec in Hp. rewrite Hp. by rewrite IH.
  - destruct (Py.contains p s) eqn:E; [|by rewrite IH].
    by apply contains_spec in E.
Qed.

(** The score does not go down when every phrase found in [a] is found
    in [b]. *)
Lemma score_mono (phrases : list string) (a b : string) :
  (∀ p, p ∈ phrases → Py.contains p a = true → Py.contains p b = true) →
  (Classifier.score phrases a ≤ Classifier.score phrases b)%nat.
Proof.
  induction phrases as [|p ps IH]; intros H; cbn [Classifier.score]; [lia|].
  assert (Classifier.score ps a ≤ Classifier.score ps b)%nat as Hps.
  { apply IH. intros q Hq. apply H. by right. }
  destruct (Py.contains p a) eqn:Ea; [|destruct (Py.contains p b); lia].
  rewrite (H p); [lia|by left|done].
Qed.

Lemma score_empty (phrases : list string) :
  Forall (λ p, p ≠ "") phrases → Classifier.score phrases "" = 0%nat.
Proof.
  induction 1 as [|p ps Hp _ IH]; [done|]. cbn [Classifier.score].
  rewrite IH. by destruct p.
Qed.

Lemma analyze_true (sp fp : list string) (transcript : option string) :
  Classifier.analyze sp fp transcript = true ↔
  ∃ t, transcript = Some t ∧ t ≠ "" ∧
       (Classifier.score fp (Py.lower t) < Classifier.score sp (Py.lower t))%nat.
Proof.
  unfold Classifier.analyze.
  destruct transcript as [[|c t]|]; cbn [Py.truthy negb from_option id].
  - split; [done|]. by intros (t & [= <-] & Hne & _).
  - rewrite Nat.ltb_lt. split.
    + intros H. by exists (String c t).
    + by intros (t' & [= <-] & _ & H).
  - split; [done|]. by intros (t & ? & _).
Qed.

(** What [Classifier.analyze] computes, for phrase lists without the empty
    phrase: more phrases of the first list than of the second are present
    in the lower-cased transcript. *)
Lemma analyze_present (sp fp : list string) (transcript : option string) :
  Forall (λ p, p ≠ "") sp →
  Classifier.analyze sp fp transcript = true ↔
  ∃ a b, Spec.present_count (Py.lower (default "" transcript)) sp a ∧
         Spec.present_count (Py.lower (default "" transcript)) fp b ∧
         (b < a)%nat.
Proof.
  intros Hsp. rewrite analyze_true. split.
  - intros (t & -> & _ & H). eauto using score_present.
  - intros (a & b & Ha & Hb & Hlt).
    apply present_count_score in Ha, Hb. subst a b.
    destruct transcript as [[|c t]|]; simpl in Hlt.
    + rewrite (score_empty sp) in Hlt by done. lia.
    + by exists (String c t).
    + rewrite (score_empty sp) in Hlt by done. lia.
Qed.

Lemma app_phrases_nonempty : Forall (λ p : string, p ≠ "") App.success_phrases.
Proof. repeat constructor; discriminate. Qed.

Lemma service_phrases_nonempty :
  Forall (λ p : string, p ≠ "") CallService.success_phrases.
Proof. repeat constructor; discriminate. Qed.

(** C8, as the code has it. [analyze_call_success] of [app.py] and
    [CallService._analyze_call_success] return true exactly when more of
    the positive phrases than of the negative phrases are present in the
    lower-cased transcript, each phrase counting once however often it
    occurs; without a transcript, or with the empty one, they return
    false. *)
Theorem analyze_call_success_counts_phrases_present
    (transcript : option string) (call_id : string) :
  (App.analyze_call_success transcript call_id = true ↔
   ∃ a b,
     Spec.present_count (Py.lower (default "" transcript)) App.success_phrases a ∧
     Spec.present_count (Py.lower (default "" transcript)) App.failure_phrases b ∧
     (b < a)%nat) ∧
  (CallService._analyze_call_success transcript = true ↔
   ∃ a b,
     Spec.present_count (Py.lower (default "" transcript)) CallService.success_phrases a ∧
     Spec.present_count (Py.lower (default "" transcript)) CallService.failure_phrases b ∧
     (b < a)%nat) ∧
  App.analyze_call_success None call_id = false ∧
  App.analyze_call_success (Some "") call_id = false ∧
  CallService._analyze_call_success None = false ∧
  CallService._analyze_call_success (Some "") = false.
Proof.
  split; [|split; [|done]].
  - apply analyze_present, app_phrases_nonempty.
  - apply analyze_present, service_phrases_nonempty.
Qed.

(** C8, as it is worded, fails: in "done done unable to" the positive
    phrases occur twice and the negative ones once, and the classifier
    answers false, the phrase "done" counting once. *)
Lemma analyze_call_success_not_by_occurrences :
  Spec.total_occurrences App.success_phrases (Py.lower "done done unable to") = 2%nat ∧
  Spec.total_occurrences App.failure_phrases (Py.lower "done done unable to") = 1%nat ∧
  Spec.classify_by_occurrences App.success_phrases App.failure_phrases
    (Some "done done unable to") = true ∧
  App.analyze_call_success (Some "done done unable to") "c1" = false.
Proof. repeat split; reflexivity. Qed.

Lemma spaced_addition_keeps_true (sp fp : list string) (t p : string) :
  Spec.spaced_addition_is_neutral sp fp = true →
  p ∈ sp →
  Classifier.analyze sp fp (Some t) = true →
  Classifier.analyze sp fp (Some (t +:+ " " +:+ p)) = true.
Proof.
  intros Hchk Hp. rewrite !analyze_true.
  intros (t0 & [= <-] & Hne & Hlt). exists (t +:+ " " +:+ p).
  split; [done|]. split; [by destruct t|].
  unfold Spec.spaced_addition_is_neutral in Hchk.
  rewrite forallb_forall in Hchk.
  apply list_elem_of_In, Hchk, andb_true_iff in Hp as [Hlow Hneg].
  apply bool_decide_eq_true in Hlow.
  rewrite forallb_forall in Hneg.
  rewrite lower_append, Hlow.
  assert (Classifier.score sp (Py.lower t)
          ≤ Classifier.score sp (Py.lower t +:+ " " +:+ p))%nat as Hs.
  { apply score_mono. intros q _. apply contains_append_l. }
  assert (Classifier.score fp (Py.lower t +:+ " " +:+ p)
          ≤ Classifier.score fp (Py.lower t))%nat as Hf.
  { apply score_mono. intros n Hn Hc.
    apply list_elem_of_In, Hneg, negb_true_iff, orb_false_iff in Hn as [Ho Hi].
    destruct (contains_append_inv _ _ _ Hc) as [?|[?|?]]; [done|congruence..]. }
  lia.
Qed.

(** C9, as the code has it. A transcript that [analyze_call_success]
    classifies as successful stays successful when a space and one more
    positive phrase are put after it. *)
Theorem analyze_call_success_monotone_spaced (t p call_id : string) :
  p ∈ App.success_phrases →
  App.analyze_call_success (Some t) call_id = true →
  App.analyze_call_success (Some (t +:+ " " +:+ p)) call_id = true.
Proof. by apply spaced_addition_keeps_true. Qed.

Lemma analyze_call_success_monotone_spaced_witness :
  "confirmed" ∈ App.success_phrases ∧
  App.analyze_call_success (Some "unable to, then done and processed") "c1" = true ∧
  App.analyze_call_success
    (Some ("unable to, then done and processed" +:+ " " +:+ "confirmed")) "c1" = true.
Proof.
  split; [|split].
  - set_solver.
  - reflexivity.
  - apply (analyze_call_success_monotone_spaced
             "unable to, then done and processed" "confirmed" "c1").
    + set_solver.
    + reflexivity.
Defined.

(** The same for [CallService._analyze_call_success] and its longer lists. *)
Lemma service_analyze_monotone_spaced (t p : string) :
  p ∈ CallService.success_phrases →
  CallService._analyze_call_success (Some t) = true →
  CallService._analyze_call_success (Some (t +:+ " " +:+ p)) = true.
Proof. by apply spaced_addition_keeps_true. Qed.

(** C9, as it is worded, fails: "done not authorize" is classified as
    successful; with the positive phrase "done" put right after it the
    text reads "not authorized", "done" counts no more than before, and
    the result is false. *)
Lemma analyze_call_success_not_monotone :
  "done" ∈ App.success_phrases ∧
  App.analyze_call_success (Some "done not authorize") "c1" = true ∧
  "done not authorize" +:+ "done" = "done not authorizedone" ∧
  App.analyze_call_success (Some ("done not authorize" +:+ "done")) "c1" = false.
Proof. split; [set_solver|]. repeat split; reflexivity. Qed.

End classifier.

(** ** [CallDatabase.update_call] *)
Section update_call.
Import App.


Lemma stored_as_given (updates : gmap string value) :
  (∀ k v, updates !! k = Some v → stored k v = Some v) →
  map_imap stored updates = updates.
Proof.
  intros H. apply map_eq. intros k. rewrite map_lookup_imap.
  destruct (updates !! k) as [v|] eqn:E; [|done]. cbn. by apply H.
Qed.

(** The statement runs when its keys are columns other than the primary
    key, its values are kept by their columns as they are given, and no
    [NOT NULL] column is set to NULL. *)
Lemma execute_update_runs (call_id : string) (updates : gmap string value) (t : table) :
  updates ≠ ∅ →
  (∀ k, k ∈ dom updates → k ∈ columns ∧ k ≠ "id") →
  (∀ k v, updates !! k = Some v → overflows v = false ∧ stored k v = Some v) →
  (∀ k, k ∈ not_null_columns → updates !! k ≠ Some VNone) →
  execute_update updates call_id t =
  Ran ((λ r : row, if has_id call_id r then updates ∪ r else r) <$> t).
Proof.
  intros Hne Hcols Hvals Hnull. unfold execute_update.
  rewrite bool_decide_false by done.
  assert (forallb (λ k, bool_decide (k ∈ columns)) (elements (dom updates)) = true) as ->.
  { apply forallb_forall. intros k Hk%list_elem_of_In%elem_of_elements.
    apply bool_decide_eq_true. by apply Hcols. }
  assert (existsb overflows ((map_to_list updates).*2) = false) as ->.
  { destruct (existsb _ _) eqn:E; [|done].
    apply existsb_exists in E as (v & Hv%list_elem_of_In & Ho).
    apply list_elem_of_fmap in Hv as ([k v'] & -> & Hkv%elem_of_map_to_list).
    destruct (Hvals k v' Hkv) as [Hno _]. cbn in Ho. congruence. }
  assert (forallb (λ kv : string * value, bool_decide (is_Some (stored kv.1 kv.2)))
            (map_to_list updates) = true) as ->.
  { apply forallb_forall. intros [k v] Hkv%list_elem_of_In%elem_of_map_to_list.
    apply bool_decide_eq_true. destruct (Hvals k v Hkv) as [_ Hs]. cbn. by rewrite Hs. }
  cbn [negb]. rewrite stored_as_given by (intros k v Hkv; by apply Hvals).
  assert (existsb (sets_null updates) not_null_columns = false) as ->.
  { destruct (existsb _ _) eqn:E; [|done].
    apply existsb_exists in E as (k & Hk%list_elem_of_In & Hs).
    apply bool_decide_eq_true in Hs. by destruct (Hnull k Hk). }
  assert (bool_decide ("id" ∈ dom updates) = false) as ->.
  { apply bool_decide_eq_false. intros H. by destruct (Hcols _ H). }
  cbn. by rewrite andb_false_r.
Qed.




Example update_call_empty_returns_false :
  update_call "c1" ∅ [Samples.call_row "c1" "dialing" 0]
    = Some ([Samples.call_row "c1" "dialing" 0], false).
Proof. reflexivity. Qed.

End update_call.

(** ** [create_call] of [app.py] *)
Section create_call.
Import App.

Lemma first_missing_none (data : gmap string string) (fields : list string) :
  (∀ f, f ∈ fields → Py.truthy (data !! f) = true) →
  first_missing data fields = None.
Proof.
  induction fields as [|f fs IH]; intros H; [done|]. cbn [first_missing].
  rewrite (H f) by left. cbn. apply IH. intros g Hg. apply H. by right.
Qed.

Lemma filter_has_id_fresh (uuid : string) (t : table) :
  Some (VStr uuid) ∉ ids t → List.filter (has_id uuid) t = [].
Proof.
  induction t as [|r t IH]; intros H; [done|]. cbn [List.filter].
  unfold ids in H. rewrite fmap_cons, not_elem_of_cons in H. destruct H as [Hr Ht].
  unfold has_id at 1. rewrite bool_decide_false by done. by apply IH.
Qed.

Lemma get_call_appended (uuid : string) (t : table) (r : row) :
  Some (VStr uuid) ∉ ids t → r !! "id" = Some (VStr uuid) →
  get_call uuid (t ++ [r]) = Some r.
Proof.
  intros Hfresh Hid. unfold get_call.
  rewrite List.filter_app, filter_has_id_fresh by done. cbn.
  unfold has_id. by rewrite bool_decide_true.
Qed.

Lemma new_call_data_lookups (uuid : string) (data : gmap string string) :
  new_call_data uuid data !! "id" = Some (VStr uuid) ∧
  new_call_data uuid data !! "phone_number" = Some (field data "phone_number") ∧
  new_call_data uuid data !! "caller_name" = Some (field data "caller_name") ∧
  new_call_data uuid data !! "caller_phone" = Some (field data "caller_phone") ∧
  new_call_data uuid data !! "account_action" = Some (field data "account_action") ∧
  new_call_data uuid data !! "status" = Some (VStr "initiating").
Proof. repeat split; reflexivity. Qed.

(** C3, as the code has it. For a request whose four required fields are
    non-empty and an identifier that is no primary key of the table yet,
    [create_call] adds one row, with status "initiating", the creation
    time and the fields of the request, answers with the identifier and
    hands the call to the background thread; it reads and writes the
    table only. [get_call] then finds the row. *)
Theorem create_call_persists_initiating
    (uuid : string) (now : Z) (data : gmap string string) (w : world) :
  (∀ f, f ∈ required_fields → Py.truthy (data !! f) = true) →
  Some (VStr uuid) ∉ ids (db w) →
  ∃ (r : row) (th : thread),
    create_call uuid now data w
      = (Created uuid, {| db := db w ++ [r]; emitted := emitted w |}, Some th) ∧
    th_call_id th = uuid ∧
    get_call uuid (db w ++ [r]) = Some r ∧
    r !! "status" = Some (VStr "initiating") ∧
    r !! "created_at" = Some (VTime now) ∧
    (∀ f, f ∈ required_fields → r !! f = VStr <$> data !! f) ∧
    r !! "additional_info" = Some (VStr (default "" (data !! "additional_info"))).
Proof.
  intros Hreq Hfresh. unfold create_call.
  rewrite first_missing_none by done.
  unfold save_call.
  destruct (new_call_data_lookups uuid data) as (-> & -> & -> & -> & -> & Hst).
  rewrite (bool_decide_false (Some (VStr uuid) ∈ _)) by done.
  rewrite bool_decide_false; last first.
  { unfold field. intros H.
    repeat (apply elem_of_cons in H as [H|H]; [discriminate|]).
    by apply elem_of_nil in H. }
  cbn [orb negb].
  eexists _, _. split; [reflexivity|]. split; [done|]. split.
  { apply get_call_appended; [done|]. reflexivity. }
  split. { unfold inserted_row. rewrite Hst. reflexivity. }
  split; [reflexivity|]. split; [|reflexivity].
  intros f Hf. pose proof (Hreq f Hf) as Ht.
  unfold required_fields in Hf.
  repeat (apply elem_of_cons in Hf as [->|Hf]); [..|by apply elem_of_nil in Hf];
    unfold field; by destruct (data !! _).
Qed.

Lemma create_call_persists_initiating_witness :
  ∃ (r : row) (th : thread),
    create_call "id-1" 1000 Samples.jane (Samples.world_of [])
      = (Created "id-1",
         {| db := db (Samples.world_of []) ++ [r];
            emitted := emitted (Samples.world_of []) |}, Some th) ∧
    th_call_id th = "id-1" ∧
    get_call "id-1" (db (Samples.world_of []) ++ [r]) = Some r ∧
    r !! "status" = Some (VStr "initiating") ∧
    r !! "created_at" = Some (VTime 1000) ∧
    (∀ f, f ∈ required_fields → r !! f = VStr <$> Samples.jane !! f) ∧
    r !! "additional_info"
      = Some (VStr (default "" (Samples.jane !! "additional_info"))).
Proof.
  apply (create_call_persists_initiating "id-1" 1000 Samples.jane (Samples.world_of [])).
  - intros f Hf. unfold required_fields in Hf.
    repeat (apply elem_of_cons in Hf as [->|Hf]); [..|by apply elem_of_nil in Hf];
      reflexivity.
  - cbn. apply not_elem_of_nil.
Defined.

(** C3, as it is worded, fails: the record that [create_call] persists for
    the request of the scenario has status "initiating", which is not
    "pending". *)
Lemma create_call_status_is_not_pending :
  (create_call "id-1" 1000 Samples.jane (Samples.world_of [])).1.1 = Created "id-1" ∧
  status_of "id-1" (db (create_call "id-1" 1000 Samples.jane (Samples.world_of [])).1.2)
    = Some (VStr "initiating") ∧
  status_of "id-1" (db (create_call "id-1" 1000 Samples.jane (Samples.world_of [])).1.2)
    ≠ Some (VStr "pending").
Proof. split; [reflexivity|]. split; [reflexivity|]. by vm_compute. Qed.

(** C2 at its failing input. The request [Samples.two_missing] has no
    destination number and an empty caller name; [create_call] of [app.py]
    names the first of the two only, and stores nothing. *)
Lemma create_call_names_first_missing_field_only :
  Py.truthy (Samples.two_missing !! "phone_number") = false ∧
  Py.truthy (Samples.two_missing !! "caller_name") = false ∧
  create_call "id-1" 1000 Samples.two_missing (Samples.world_of [])
    = (Failure 400 "Missing required field: phone_number", Samples.world_of [], None).
Proof. repeat split; reflexivity. Qed.

End create_call.

(** ** [validate_call_request] and [create_call] of [routes.py] *)
Section validation.
Import Validators.

Lemma required_errors_complete (data : gmap string string) (fields : list string)
    (f : string) :
  f ∈ fields → is_empty data f = true →
  (f +:+ " is required") ∈ required_errors data fields.
Proof.
  induction fields as [|g fs IH]; intros Hf He; [by apply elem_of_nil in Hf|].
  cbn [required_errors]. apply elem_of_app.
  apply elem_of_cons in Hf as [->|Hf].
  - left. rewrite He. by left.
  - right. by apply IH.
Qed.

(** The path that does what C2 says: [validate_call_request] lists every
    empty required field, whatever else is wrong with the request. *)
Lemma validate_call_request_lists_every_empty_field
    (data : gmap string string) (f : string) :
  f ∈ required_fields → is_empty data f = true →
  (f +:+ " is required") ∈ validate_call_request data.
Proof.
  intros Hf He. unfold validate_call_request.
  apply elem_of_app. left. by apply required_errors_complete.
Qed.

(** [create_call] of [routes.py] answers such a request with the whole
    list and does not reach [initiate_call]: the state is untouched. *)
Lemma routes_create_call_rejects {S : Type}
    (initiate_call : Models.Call → S → S * bool) (uuid : string) (now : Z)
    (data : gmap string string) (st : S) (f : string) :
  f ∈ required_fields → is_empty data f = true →
  Routes.create_call initiate_call uuid now data st
    = (Routes.ValidationFailed (validate_call_request data), st).
Proof.
  intros Hf He. unfold Routes.create_call.
  pose proof (validate_call_request_lists_every_empty_field data f Hf He) as Hin.
  rewrite bool_decide_false; [done|].
  intros Heq. rewrite Heq in Hin. by apply elem_of_nil in Hin.
Qed.

Lemma routes_create_call_rejects_witness :
  Routes.create_call (λ (_ : Models.Call) (n : nat), (S n, true)) "id-1" 1000
    Samples.two_missing 0%nat
  = (Routes.ValidationFailed ["caller_name is required"; "phone_number is required"],
     0%nat).
Proof.
  apply (routes_create_call_rejects (λ (_ : Models.Call) (n : nat), (S n, true))
           "id-1" 1000 Samples.two_missing 0%nat "caller_name").
  - left.
  - reflexivity.
Defined.

Example validate_two_missing :
  validate_call_request Samples.two_missing
    = ["caller_name is required"; "phone_number is required"].
Proof. reflexivity. Qed.

End validation.

(** ** [terminate_call], and the loop of [CallService] *)
Section terminate_call.
Import Models Database.

(** C4 at its failing input. [terminate_call] of [app.py] answers with
    success and writes "terminated" over a call that is already completed;
    for an identifier that no row has, it answers with success too and
    the table stays as it was. *)
Lemma app_terminate_call_is_unguarded :
  (App.terminate_call "c1" 2000
     (Samples.world_of [Samples.call_row "c1" "completed" 0])).1
    = App.Success "Call terminated successfully" ∧
  App.status_of "c1"
    (App.db (App.terminate_call "c1" 2000
               (Samples.world_of [Samples.call_row "c1" "completed" 0])).2)
    = Some (App.VStr "terminated") ∧
  App.terminate_call "no-such-call" 2000
    (Samples.world_of [Samples.call_row "c1" "completed" 0])
    = (App.Success "Call terminated successfully",
       App.emit "no-such-call" "terminated"
         (Samples.world_of [Samples.call_row "c1" "completed" 0])).
Proof. repeat split; reflexivity. Qed.

(** The path that does what C4 says: [CallService.terminate_call] succeeds
    exactly for a stored call that is dialing or in progress, then sets
    TERMINATED and the completion time and nothing else; in every other
    case the store stays as it was. *)
Lemma service_terminate_call_guarded (call_id : string) (now : Z) (s : store) :
  ((CallService.terminate_call call_id now s).2 = true ↔
   ∃ c, s !! call_id = Some c ∧ (status c = DIALING ∨ status c = IN_PROGRESS)) ∧
  (∀ c, s !! call_id = Some c →
        (CallService.terminate_call call_id now s).2 = true →
        (CallService.terminate_call call_id now s).1 =
        <[call_id := {| id := id c; request := request c; status := TERMINATED;
                        synthflow_call_id := synthflow_call_id c;
                        created_at := created_at c; completed_at := Some now;
                        duration := duration c; transcript := transcript c;
                        success := success c; error_message := error_message c;
                        metadata := metadata c |}]> s) ∧
  ((CallService.terminate_call call_id now s).2 = false →
   (CallService.terminate_call call_id now s).1 = s).
Proof.
  unfold CallService.terminate_call, CallService.get_call, get_call, update_call.
  destruct (s !! call_id) as [c|] eqn:Hc; cbn.
  - destruct (decide (status c ∈ [DIALING; IN_PROGRESS])) as [Hin|Hout].
    + rewrite bool_decide_true by done. cbn.
      split; [|split].
      * split; [|done]. intros _. exists c. split; [done|].
        apply elem_of_cons in Hin as [?|Hin]; [by left|].
        apply elem_of_cons in Hin as [?|Hin]; [by right|].
        by apply elem_of_nil in Hin.
      * by intros c' [= <-] _.
      * done.
    + rewrite bool_decide_false by done. cbn.
      split; [|split; [done|done]].
      split; [done|]. intros (c' & [= <-] & Hst). destruct Hout.
      destruct Hst as [->| ->]; [by left|right; by left].
  - split; [|split; [done|done]].
    split; [done|]. by intros (c & ? & _).
Qed.

(** The loop of [_monitor_call_progress] writes the status of every poll
    and never reads the stored one: a call that was dialing and has been
    terminated is in progress again after the next poll. *)
Example service_poll_reverts_terminated :
  (CallService.terminate_call "c1" 2000
     {[ "c1" := Samples.call_of "c1" DIALING 0 ]}).2 = true ∧
  status <$>
    (CallService.terminate_call "c1" 2000
       {[ "c1" := Samples.call_of "c1" DIALING 0 ]}).1 !! "c1" = Some TERMINATED ∧
  status <$>
    (CallService.monitor_iter true "c1"
       {| CallService.p_now := 5000;
          CallService.p_status :=
            CallService.StatusBody (Some [Some "in_progress"]) None;
          CallService.p_transcript := CallService.TranscriptBody None |}
       (CallService.terminate_call "c1" 2000
          {[ "c1" := Samples.call_of "c1" DIALING 0 ]}).1).2 !! "c1"
    = Some IN_PROGRESS.
Proof. repeat split; reflexivity. Qed.

(** A poll of [_monitor_call_progress] that raises writes nothing and does
    not end the loop, whatever its number. *)
Lemma service_poll_error_continues (values_are_strings : bool) (call_id : string)
    (p : CallService.poll) (s : store) :
  CallService.p_status p = CallService.StatusRaised →
  CallService.monitor_iter values_are_strings call_id p s = (App.Continue, s).
Proof. intros H. unfold CallService.monitor_iter. by rewrite H. Qed.

End terminate_call.

(** ** [monitor_call_progress] *)
Section monitor.
Import App.

Lemma keeps_stored (k : string) (v : value) :
  Spec.keeps k v = true → stored k v = Some v.
Proof.
  unfold Spec.keeps, stored. destruct (bool_decide (k ∈ numeric_columns)).
  - by destruct v.
  - by destruct v.
Qed.

Lemma db_update_runs (call_id : string) (l : list (string * value)) (w : world) :
  l ≠ [] → Spec.plain_keys l = true → Spec.kept_as_given l = true →
  db (db_update call_id l w) = Spec.updated call_id l (db w).
Proof.
  intros Hne Hkeys Hvals. unfold db_update, update_call, Spec.updated. cbn [db].
  unfold Spec.plain_keys in Hkeys. rewrite forallb_forall in Hkeys.
  unfold Spec.kept_as_given in Hvals. rewrite forallb_forall in Hvals.
  rewrite execute_update_runs; [done|..].
  - destruct l as [|[k v] l]; [done|]. cbn. apply insert_non_empty.
  - intros k Hk. rewrite dom_list_to_map_L, elem_of_list_to_set in Hk.
    apply list_elem_of_In, Hkeys in Hk.
    apply andb_true_iff in Hk as [Hk _]. apply andb_true_iff in Hk as [Hc Hi].
    apply bool_decide_eq_true in Hc. apply negb_true_iff, bool_decide_eq_false in Hi.
    done.
  - intros k v Hkv%elem_of_list_to_map_2%list_elem_of_In%Hvals.
    apply andb_true_iff in Hkv as [Ho Hs]. cbn in Ho, Hs.
    apply negb_true_iff in Ho. split; [done|]. by apply keeps_stored.
  - intros k Hk Hnull.
    assert (k ∈ l.*1) as Hin.
    { apply elem_of_list_to_map_2 in Hnull. apply list_elem_of_fmap. by exists (k, VNone). }
    apply list_elem_of_In, Hkeys in Hin.
    apply andb_true_iff in Hin as [_ Hn].
    apply negb_true_iff, bool_decide_eq_false in Hn. done.
Qed.

(** A statement with names of columns as keys that binds an integer
    outside 64 bits raises: nothing is written. *)
Lemma db_update_overflows (call_id : string) (l : list (string * value)) (w : world) :
  NoDup l.*1 → Spec.plain_keys l = true → existsb overflows l.*2 = true →
  db (db_update call_id l w) = db w.
Proof.
  intros Hnd Hkeys Hover. unfold db_update, update_call, execute_update. cbn [db].
  destruct (bool_decide (_ = ∅)); [done|].
  assert (forallb (λ k, bool_decide (k ∈ columns))
            (elements (dom (list_to_map l : gmap string value))) = true) as ->.
  { apply forallb_forall. intros k Hk%list_elem_of_In%elem_of_elements.
    rewrite dom_list_to_map_L, elem_of_list_to_set in Hk.
    unfold Spec.plain_keys in Hkeys. rewrite forallb_forall in Hkeys.
    apply list_elem_of_In, Hkeys in Hk.
    apply andb_true_iff in Hk as [Hk _]. by apply andb_true_iff in Hk as [Hc _]. }
  assert (existsb overflows
            ((map_to_list (list_to_map l : gmap string value)).*2) = true) as ->; [|done].
  apply existsb_exists in Hover as (v & Hv%list_elem_of_In & Ho).
  apply list_elem_of_fmap in Hv as ([k v'] & -> & Hkv).
  apply existsb_exists. exists v'. split; [|done]. apply list_elem_of_In.
  apply list_elem_of_fmap. exists (k, v'). split; [done|].
  apply elem_of_map_to_list. by apply elem_of_list_to_map_1.
Qed.

(** [update_call] has an answer for the keys and values that the calls of
    [db_update] in this file pass. *)
Lemma db_update_is_modelled (call_id : string) (l : list (string * value)) (t : table) :
  forallb (λ kv : string * value,
    bool_decide (kv.1 ∈ columns) && bool_decide (is_Some (stored kv.1 kv.2))) l = true →
  is_Some (update_call call_id (list_to_map l) t).
Proof.
  intros Hl. rewrite forallb_forall in Hl. unfold update_call, execute_update.
  destruct (bool_decide (_ = ∅)); [done|].
  assert (forallb (λ k, bool_decide (k ∈ columns))
            (elements (dom (list_to_map l : gmap string value))) = true) as ->.
  { apply forallb_forall. intros k Hk%list_elem_of_In%elem_of_elements.
    rewrite dom_list_to_map_L, elem_of_list_to_set in Hk.
    apply list_elem_of_fmap in Hk as ([k' v] & -> & Hkv%list_elem_of_In%Hl).
    by apply andb_true_iff in Hkv as [Hc _]. }
  cbn [negb]. destruct (existsb overflows _); [done|].
  assert (forallb (λ kv : string * value, bool_decide (is_Some (stored kv.1 kv.2)))
            (map_to_list (list_to_map l : gmap string value)) = true) as ->.
  { apply forallb_forall.
    intros [k v] Hkv%list_elem_of_In%elem_of_map_to_list%elem_of_list_to_map_2.
    apply list_elem_of_In, Hl in Hkv. by apply andb_true_iff in Hkv as [_ Hs]. }
  cbn [negb]. by destruct (_ && _).
Qed.

(** The updates that the routes, the background task and the monitor
    write: every one is in the reach of [db_update_is_modelled]. *)
Lemma lifecycle_updates_are_modelled (s msg : string) (now : Z)
    (duration : option (option Z)) (transcript pid : option string) (success : bool) :
  Forall (λ l : list (string * value),
            forallb (λ kv : string * value,
              bool_decide (kv.1 ∈ columns) &&
              bool_decide (is_Some (stored kv.1 kv.2))) l = true)
    [ [ ("status", VStr s) ];
      [ ("status", VStr s); ("call_id", opt_str pid) ];
      [ ("status", VStr s); ("error_message", VStr msg); ("completed_at", VTime now) ];
      [ ("status", VStr s); ("completed_at", VTime now) ];
      [ ("status", VStr s); ("completed_at", VTime now);
        ("duration", duration_value duration); ("transcript", opt_str transcript);
        ("success", VBool success) ] ].
Proof.
  destruct pid, transcript, duration as [[d|]|]; repeat constructor.
Qed.

Lemma monitor_iter_keeps_polling (call_id : string) (p : poll) (m : monitor) (w : world) :
  Spec.keeps_polling (S (poll_count m)) p = true →
  ∃ m' w', monitor_iter call_id p m w = (Continue, m', w') ∧
           poll_count m' = S (poll_count m) ∧ db w' = db w ∧
           (last_status m ∉ Some <$> finished_statuses →
            last_status m' ∉ Some <$> finished_statuses).
Proof.
  unfold Spec.keeps_polling, monitor_iter. intros H.
  destruct (p_status p) as [msg|calls duration].
  - apply Nat.leb_le in H.
    destruct (3 <? S (poll_count m))%nat eqn:E; [apply Nat.ltb_lt in E; lia|].
    by eexists _, _.
  - apply andb_true_iff in H as [H1 H2].
    apply negb_true_iff in H1, H2. rewrite H1, H2.
    eexists _, _. split; [reflexivity|]. split; [done|].
    split; [by destruct (negb _)|]. cbn [last_status].
    destruct (negb _); [|done]. intros _ (s & [= <-] & Hs)%list_elem_of_fmap.
    by apply bool_decide_eq_false in H1.
Qed.

Lemma finished_updates_kept (call_id : string) (p : poll) (s : string) :
  Spec.duration_fits p = true →
  Spec.kept_as_given (Spec.finished_updates call_id p s) = true.
Proof.
  unfold Spec.duration_fits, Spec.finished_updates. intros Hfit.
  destruct (p_transcript p) as [msg|[text|]], (p_status p) as [msg'|calls [[d|]|]];
    cbn in *; rewrite ?Hfit; reflexivity.
Qed.

Lemma finished_updates_overflow (call_id : string) (p : poll) (s : string) :
  Spec.duration_fits p = false →
  existsb overflows (Spec.finished_updates call_id p s).*2 = true.
Proof.
  unfold Spec.duration_fits, Spec.finished_updates. intros Hfit.
  destruct (p_status p) as [msg'|calls [[d|]|]]; try discriminate.
  cbn. by rewrite Hfit.
Qed.

Lemma monitor_iter_finished (call_id : string) (p : poll) (m : monitor) (w : world)
    (s : string) :
  Spec.reads_status s p → s ∈ finished_statuses →
  ∃ w', monitor_iter call_id p m w
          = (Break, {| poll_count := S (poll_count m); last_status := Some s |}, w') ∧
        db w' = (if Spec.duration_fits p
                 then Spec.updated call_id (Spec.finished_updates call_id p s) (db w)
                 else db w).
Proof.
  intros (calls & duration & Hp & Hs) Hfin. unfold monitor_iter.
  rewrite Hp, Hs. rewrite (bool_decide_true (s ∈ _)) by done.
  eexists. split.
  - f_equal. f_equal. f_equal.
    destruct (decide (Some s = last_status m)) as [He|Hn].
    + rewrite bool_decide_true by done. by cbn.
    + by rewrite bool_decide_false.
  - cbn [emit db].
    pose proof (finished_updates_kept call_id p s) as Hkept.
    pose proof (finished_updates_overflow call_id p s) as Hover.
    unfold Spec.finished_updates in *. rewrite Hp in *.
    destruct (Spec.duration_fits p).
    + rewrite db_update_runs; [|done|done|by apply Hkept]. by destruct (negb _).
    + rewrite db_update_overflows; [by destruct (negb _)| |done|by apply Hover].
      change (NoDup ["status"; "completed_at"; "duration"; "transcript"; "success"]).
      apply (bool_decide_unpack _). by vm_compute.
Qed.

Lemma monitor_iter_queue (call_id : string) (p : poll) (m : monitor) (w : world) :
  Spec.reads_status "queue" p → (6 ≤ S (poll_count m))%nat →
  ∃ w', monitor_iter call_id p m w
          = (Break, {| poll_count := S (poll_count m); last_status := Some "queue" |}, w') ∧
        db w' = Spec.updated call_id (Spec.stuck_in_queue_updates p) (db w).
Proof.
  intros (calls & duration & Hp & Hs) Hsix. unfold monitor_iter.
  rewrite Hp, Hs. assert (bool_decide ("queue" ∈ finished_statuses) = false) as -> by reflexivity.
  rewrite (bool_decide_true ("queue" = "queue")) by done.
  apply Nat.leb_le in Hsix. rewrite Hsix. cbn [andb].
  eexists. split.
  - f_equal. f_equal. f_equal.
    destruct (decide (Some "queue" = last_status m)) as [He|Hn].
    + rewrite bool_decide_true by done. by cbn.
    + by rewrite bool_decide_false.
  - cbn [emit db]. rewrite db_update_runs; [|done|done|done].
    by destruct (negb _).
Qed.

Lemma monitor_loop_prefix (call_id : string) (provider : nat → poll) (n : nat) :
  ∀ (fuel : nat) (m : monitor) (w : world),
  (∀ j, (poll_count m < j ≤ poll_count m + n)%nat →
        Spec.keeps_polling j (provider j) = true) →
  (poll_count m + n ≤ max_polls)%nat → (n ≤ fuel)%nat →
  ∃ m' w', monitor_loop fuel call_id provider m w
             = monitor_loop (fuel - n) call_id provider m' w' ∧
           poll_count m' = (poll_count m + n)%nat ∧ db w' = db w ∧
           (last_status m ∉ Some <$> finished_statuses →
            last_status m' ∉ Some <$> finished_statuses).
Proof.
  induction n as [|n IH]; intros fuel m w Hq Hmax Hfuel.
  - exists m, w. rewrite Nat.sub_0_r, Nat.add_0_r. done.
  - destruct fuel as [|fuel]; [lia|]. cbn [monitor_loop].
    assert ((poll_count m <? max_polls)%nat = true) as -> by (apply Nat.ltb_lt; lia).
    destruct (monitor_iter_keeps_polling call_id (provider (S (poll_count m))) m w)
      as (m1 & w1 & -> & Hc1 & Hd1 & Hl1).
    { apply Hq. lia. }
    destruct (IH fuel m1 w1) as (m' & w' & -> & Hc' & Hd' & Hl'); [|lia|lia|].
    { intros j Hj. apply Hq. lia. }
    exists m', w'. split; [done|]. split; [lia|]. split; [congruence|auto].
Qed.

Lemma monitor_iter_poll_count (call_id : string) (p : poll) (m : monitor) (w : world) :
  poll_count (monitor_iter call_id p m w).1.2 = S (poll_count m).
Proof.
  unfold monitor_iter. destruct (p_status p) as [msg|calls duration].
  - by destruct (3 <? _)%nat.
  - destruct (bool_decide (_ ∈ _)); [done|]. by destruct (_ && _).
Qed.

(** More fuel than the polls that are left changes nothing. *)
Lemma monitor_loop_fuel (call_id : string) (provider : nat → poll) (fuel : nat) :
  ∀ (m : monitor) (w : world),
  (max_polls - poll_count m ≤ fuel)%nat →
  monitor_loop (S fuel) call_id provider m w = monitor_loop fuel call_id provider m w.
Proof.
  induction fuel as [|fuel IH]; intros m w Hfuel.
  - cbn [monitor_loop].
    assert ((poll_count m <? max_polls)%nat = false) as ->; [|done].
    apply Nat.ltb_ge. lia.
  - change (monitor_loop (S (S fuel)) call_id provider m w) with
      (if (poll_count m <? max_polls)%nat then
         match monitor_iter call_id (provider (S (poll_count m))) m w with
         | (Continue, m', w') => monitor_loop (S fuel) call_id provider m' w'
         | (Break, m', w') => (m', w')
         end
       else (m, w)).
    cbn [monitor_loop]. destruct (poll_count m <? max_polls)%nat; [|done].
    pose proof (monitor_iter_poll_count call_id (provider (S (poll_count m))) m w) as Hc.
    destruct (monitor_iter _ _ _ _) as [[[] m'] w']; [|done].
    cbn in Hc. apply IH. lia.
Qed.

Lemma monitor_loop_fuel_witness :
  monitor_loop 13 "c1" Samples.queued {| poll_count := 0; last_status := None |}
    (Samples.world_of [Samples.call_row "c1" "initiated" 0])
  = monitor_loop 12 "c1" Samples.queued {| poll_count := 0; last_status := None |}
      (Samples.world_of [Samples.call_row "c1" "initiated" 0]).
Proof.
  apply (monitor_loop_fuel "c1" Samples.queued 12
           {| poll_count := 0; last_status := None |}
           (Samples.world_of [Samples.call_row "c1" "initiated" 0])).
  unfold max_polls. cbn. lia.
Defined.

Lemma reads_queue_keeps_polling (j : nat) (p : poll) :
  Spec.reads_status "queue" p → (j < 6)%nat → Spec.keeps_polling j p = true.
Proof.
  intros (calls & duration & Hp & Hs) Hj. unfold Spec.keeps_polling.
  rewrite Hp, Hs.
  assert ((6 <=? j)%nat = false) as -> by (apply Nat.leb_gt; lia).
  reflexivity.
Qed.

Lemma filter_updated (call_id : string) (l : list (string * value)) (t : table) :
  (list_to_map l : gmap string value) !! "id" = None →
  List.filter (has_id call_id) (Spec.updated call_id l t)
  = (λ r : row, list_to_map l ∪ r) <$> List.filter (has_id call_id) t.
Proof.
  intros Hid. unfold Spec.updated.
  induction t as [|r t IH]; [done|]. rewrite fmap_cons. cbn [List.filter].
  destruct (has_id call_id r) eqn:E.
  - assert (has_id call_id (list_to_map l ∪ r) = true) as ->.
    { unfold has_id in *. apply bool_decide_eq_true in E.
      apply bool_decide_eq_true. by rewrite lookup_union_r. }
    rewrite fmap_cons. by f_equal.
  - by rewrite E.
Qed.

Lemma filter_updated_other (call_id j : string) (l : list (string * value)) (t : table) :
  j ≠ call_id → (list_to_map l : gmap string value) !! "id" = None →
  List.filter (has_id j) (Spec.updated call_id l t) = List.filter (has_id j) t.
Proof.
  intros Hj Hid. unfold Spec.updated.
  induction t as [|r t IH]; [done|]. rewrite fmap_cons. cbn [List.filter].
  destruct (has_id call_id r) eqn:E; [|by rewrite IH].
  assert (has_id j r = false) as Hjr.
  { unfold has_id in *. apply bool_decide_eq_true in E.
    apply bool_decide_eq_false. rewrite E. by intros [= ->]. }
  assert (has_id j (list_to_map l ∪ r) = false) as ->.
  { unfold has_id in *. apply bool_decide_eq_false in Hjr.
    apply bool_decide_eq_false. by rewrite lookup_union_r. }
  by rewrite Hjr.
Qed.

Lemma get_call_updated (call_id : string) (l : list (string * value)) (t : table) (r : row) :
  (list_to_map l : gmap string value) !! "id" = None →
  get_call call_id t = Some r →
  get_call call_id (Spec.updated call_id l t) = Some (list_to_map l ∪ r).
Proof.
  intros Hid. unfold get_call. rewrite filter_updated by done.
  destruct (List.filter _ t); [done|]. by intros [= ->].
Qed.

(** The whole run, when the answer of poll [k] is a finished status and
    the loop is still polling then: the run ends with that poll, and the
    table at its end is the table at its start with the one final update,
    or the table at its start when that update raises. *)
Lemma monitor_writes_once (call_id : string) (provider : nat → poll) (end_now : Z)
    (w : world) (k : nat) (s : string) :
  (1 ≤ k ≤ max_polls)%nat →
  (∀ j, (1 ≤ j < k)%nat → Spec.keeps_polling j (provider j) = true) →
  Spec.reads_status s (provider k) → s ∈ finished_statuses →
  poll_count (monitor_call_progress call_id provider end_now w).1 = k ∧
  db (monitor_call_progress call_id provider end_now w).2
    = (if Spec.duration_fits (provider k)
       then Spec.updated call_id (Spec.finished_updates call_id (provider k) s) (db w)
       else db w).
Proof.
  intros Hk Hpre Hread Hfin. unfold monitor_call_progress.
  destruct (monitor_loop_prefix call_id provider (k - 1) max_polls
              {| poll_count := 0%nat; last_status := None |} w)
    as (m1 & w1 & -> & Hc1 & Hd1 & _); [|cbn; lia|lia|].
  { cbn. intros j Hj. apply Hpre. lia. }
  cbn in Hc1.
  destruct (max_polls - (k - 1))%nat as [|fuel] eqn:Ef; [lia|].
  cbn [monitor_loop].
  assert ((poll_count m1 <? max_polls)%nat = true) as -> by (apply Nat.ltb_lt; lia).
  replace (S (poll_count m1)) with k by lia.
  destruct (monitor_iter_finished call_id (provider k) m1 w1 s) as (w2 & -> & Hd2);
    [done..|].
  cbn [fst snd]. unfold monitor_finish. cbn [last_status].
  rewrite (bool_decide_true (Some s ∈ _)); last first.
  { apply list_elem_of_fmap. by exists s. }
  rewrite andb_false_r. cbn [poll_count]. split; [lia|]. by rewrite Hd2, Hd1.
Qed.

(** When all twelve polls read answers after which the loop goes on, the
    budget is used up and the record is marked with "timeout", its message
    and a completion time. *)
Lemma monitor_times_out (call_id : string) (provider : nat → poll) (end_now : Z)
    (w : world) (r : row) :
  (∀ j, (1 ≤ j ≤ max_polls)%nat → Spec.keeps_polling j (provider j) = true) →
  get_call call_id (db w) = Some r →
  poll_count (monitor_call_progress call_id provider end_now w).1 = max_polls ∧
  ∃ r', get_call call_id (db (monitor_call_progress call_id provider end_now w).2)
          = Some r' ∧
        r' !! "status" = Some (VStr "timeout") ∧
        r' !! "error_message" = Some (VStr "Call monitoring timeout") ∧
        r' !! "completed_at" = Some (VTime end_now) ∧
        ∀ k, k ∉ ["status"; "error_message"; "completed_at"] → r' !! k = r !! k.
Proof.
  intros Hall Hr. unfold monitor_call_progress.
  destruct (monitor_loop_prefix call_id provider max_polls max_polls
              {| poll_count := 0%nat; last_status := None |} w)
    as (m1 & w1 & -> & Hc1 & Hd1 & Hl1); [|cbn; lia|lia|].
  { cbn. intros j Hj. apply Hall. lia. }
  cbn in Hc1. rewrite Nat.sub_diag. cbn [monitor_loop fst snd].
  unfold monitor_finish. rewrite Hc1, Nat.leb_refl.
  rewrite bool_decide_false; last first.
  { apply Hl1. cbn [last_status]. by intros (s & [=] & _)%list_elem_of_fmap. }
  cbn [andb negb emit db]. split; [done|].
  rewrite db_update_runs, Hd1; [|done|done|done].
  eexists. split; [by apply get_call_updated|].
  split; [by apply lookup_union_Some_l|].
  split; [by apply lookup_union_Some_l|].
  split; [by apply lookup_union_Some_l|].
  intros k Hk. apply lookup_union_r.
  apply not_elem_of_list_to_map_1. cbn. done.
Qed.

Lemma monitor_times_out_witness :
  poll_count (monitor_call_progress "c1" (λ k, Samples.answers (Z.of_nat k) "ringing") 99
                (Samples.world_of [Samples.call_row "c1" "initiated" 0])).1 = max_polls ∧
  status_of "c1"
    (db (monitor_call_progress "c1" (λ k, Samples.answers (Z.of_nat k) "ringing") 99
           (Samples.world_of [Samples.call_row "c1" "initiated" 0])).2)
    = Some (VStr "timeout").
Proof.
  destruct (monitor_times_out "c1" (λ k, Samples.answers (Z.of_nat k) "ringing") 99
              (Samples.world_of [Samples.call_row "c1" "initiated" 0])
              (Samples.call_row "c1" "initiated" 0))
    as (Hcount & r' & Hget & Hst & _).
  - intros j Hj. unfold Spec.keeps_polling. cbn.
    destruct (6 <=? j)%nat; reflexivity.
  - reflexivity.
  - split; [exact Hcount|]. unfold status_of. rewrite Hget. exact Hst.
Defined.

(** C5. When the answers of seven polls in a row, [k] to [k + 6], are
    "queue", the status the code waits for, and the loop is still polling
    at poll [k], then [monitor_call_progress] stops at the sixth poll,
    before the twelve polls of its budget are used, and the record of the
    call is failed, with the stuck-in-queue message and a completion
    time. *)
Theorem stuck_in_queue_fails_early (call_id : string) (provider : nat → poll)
    (end_now : Z) (w : world) (k : nat) (r : row) :
  (1 ≤ k)%nat → (k + 6 ≤ max_polls)%nat →
  (∀ j, (1 ≤ j < k)%nat → Spec.keeps_polling j (provider j) = true) →
  (∀ j, (k ≤ j ≤ k + 6)%nat → Spec.reads_status "queue" (provider j)) →
  get_call call_id (db w) = Some r →
  poll_count (monitor_call_progress call_id provider end_now w).1 = 6%nat ∧
  (poll_count (monitor_call_progress call_id provider end_now w).1 < max_polls)%nat ∧
  db (monitor_call_progress call_id provider end_now w).2
    = Spec.updated call_id (Spec.stuck_in_queue_updates (provider 6%nat)) (db w) ∧
  ∃ r', get_call call_id (db (monitor_call_progress call_id provider end_now w).2)
          = Some r' ∧
        r' !! "status" = Some (VStr "failed") ∧
        r' !! "error_message"
          = Some (VStr "Call stuck in queue - likely missing phone number or account issue") ∧
        r' !! "completed_at" = Some (VTime (p_now (provider 6%nat))).
Proof.
  intros Hk Hmax Hpre Hqueue Hr.
  assert (poll_count (monitor_call_progress call_id provider end_now w).1 = 6%nat ∧
          db (monitor_call_progress call_id provider end_now w).2
            = Spec.updated call_id (Spec.stuck_in_queue_updates (provider 6%nat)) (db w))
    as [Hcount Hdb].
  { unfold monitor_call_progress.
    destruct (monitor_loop_prefix call_id provider 5 max_polls
                {| poll_count := 0%nat; last_status := None |} w)
      as (m1 & w1 & -> & Hc1 & Hd1 & _); [|unfold max_polls; cbn; lia..|].
    { cbn. intros j Hj. destruct (decide (j < k)%nat) as [Hlt|Hge].
      - apply Hpre. lia.
      - apply reads_queue_keeps_polling; [apply Hqueue|]; lia. }
    cbn in Hc1. change (max_polls - 5)%nat with 7%nat. cbn [monitor_loop].
    assert ((poll_count m1 <? max_polls)%nat = true) as ->
      by (apply Nat.ltb_lt; unfold max_polls; cbn; lia).
    rewrite Hc1.
    destruct (monitor_iter_queue call_id (provider 6%nat) m1 w1) as (w2 & -> & Hd2);
      [apply Hqueue; unfold max_polls in Hmax; lia|lia|].
    cbn [fst snd]. unfold monitor_finish. cbn [poll_count]. rewrite Hc1.
    change (max_polls <=? 6)%nat with false. cbn [andb].
    split; [done|congruence]. }
  split; [done|]. split; [rewrite Hcount; unfold max_polls; lia|]. split; [done|].
  exists (list_to_map (Spec.stuck_in_queue_updates (provider 6%nat)) ∪ r).
  split; [|split; [|split]].
  - rewrite Hdb. by apply get_call_updated.
  - by apply lookup_union_Some_l.
  - by apply lookup_union_Some_l.
  - by apply lookup_union_Some_l.
Qed.

Lemma stuck_in_queue_fails_early_witness :
  poll_count (monitor_call_progress "c1" Samples.queued 99
                (Samples.world_of [Samples.call_row "c1" "initiated" 0])).1 = 6%nat ∧
  status_of "c1"
    (db (monitor_call_progress "c1" Samples.queued 99
           (Samples.world_of [Samples.call_row "c1" "initiated" 0])).2)
    = Some (VStr "failed").
Proof.
  destruct (stuck_in_queue_fails_early "c1" Samples.queued 99
              (Samples.world_of [Samples.call_row "c1" "initiated" 0]) 1%nat
              (Samples.call_row "c1" "initiated" 0))
    as (Hcount & _ & _ & r' & Hget & Hst & _).
  - lia.
  - unfold max_polls. lia.
  - intros j Hj. lia.
  - intros j _. by eexists _, _.
  - reflexivity.
  - split; [exact Hcount|]. unfold status_of. rewrite Hget. exact Hst.
Defined.

(** C6, as the code has it. A poll that returns a provider error writes
    nothing: it marks nothing as failed, whatever came before; and on one
    of the first three polls it does not end the loop. *)
Theorem provider_error_writes_nothing (call_id : string) (p : poll) (m : monitor)
    (w : world) (msg : string) :
  p_status p = StatusError msg →
  (monitor_iter call_id p m w).2 = w ∧
  ((poll_count m < 3)%nat →
   monitor_iter call_id p m w
     = (Continue, {| poll_count := S (poll_count m); last_status := last_status m |}, w)).
Proof.
  intros Hp. unfold monitor_iter. rewrite Hp. split.
  - by destruct (3 <? _)%nat.
  - intros Hlt.
    assert ((3 <? S (poll_count m))%nat = false) as ->; [|done].
    apply Nat.ltb_ge. lia.
Qed.

Lemma provider_error_writes_nothing_witness :
  (monitor_iter "c1" (Samples.fails 5) {| poll_count := 0%nat; last_status := None |}
     (Samples.world_of [Samples.call_row "c1" "initiated" 0])).2
    = Samples.world_of [Samples.call_row "c1" "initiated" 0] ∧
  ((0 < 3)%nat →
   monitor_iter "c1" (Samples.fails 5) {| poll_count := 0%nat; last_status := None |}
     (Samples.world_of [Samples.call_row "c1" "initiated" 0])
     = (Continue, {| poll_count := 1%nat; last_status := None |},
        Samples.world_of [Samples.call_row "c1" "initiated" 0])).
Proof.
  apply (provider_error_writes_nothing "c1" (Samples.fails 5)
           {| poll_count := 0%nat; last_status := None |}
           (Samples.world_of [Samples.call_row "c1" "initiated" 0])
           "Failed to get call status: 503").
  reflexivity.
Defined.

(** C6, as it is worded, fails. With [Samples.late_error] the first
    provider error comes at the fourth poll and ends the polling at once,
    and the record keeps the status it had; with [Samples.three_errors]
    three polls in a row return errors, the loop polls on, and the call
    ends completed. *)
Lemma provider_errors_are_not_counted :
  monitor_call_progress "c1" Samples.late_error 99
    (Samples.world_of [Samples.call_row "c1" "initiated" 0])
  = ({| poll_count := 4%nat; last_status := Some "ringing" |},
     emit "c1" "ringing" (Samples.world_of [Samples.call_row "c1" "initiated" 0])) ∧
  poll_count (monitor_call_progress "c1" Samples.three_errors 99
                (Samples.world_of [Samples.call_row "c1" "initiated" 0])).1 = 4%nat ∧
  status_of "c1"
    (db (monitor_call_progress "c1" Samples.three_errors 99
           (Samples.world_of [Samples.call_row "c1" "initiated" 0])).2)
    = Some (VStr "completed").
Proof. repeat split; reflexivity. Qed.

(** The scenario of the specification on [app.py]: the request is stored
    at once, the provider accepts it as "prov-1" and later reports
    "completed" with a transcript that confirms; the record ends completed
    and successful. *)
Example scenario_completed :
  status_of "id-1"
    (db (initiate_call_async "id-1" (CreateOk (Some "prov-1")) 1001
           Samples.completed 1100
           (create_call "id-1" 1000 Samples.jane (Samples.world_of [])).1.2))
    = Some (VStr "completed") ∧
  (get_call "id-1"
     (db (initiate_call_async "id-1" (CreateOk (Some "prov-1")) 1001
            Samples.completed 1100
            (create_call "id-1" 1000 Samples.jane (Samples.world_of [])).1.2))
     ≫= (.!! "success")) = Some (VBool true) ∧
  ev_status <$>
    emitted (initiate_call_async "id-1" (CreateOk (Some "prov-1")) 1001
               Samples.completed 1100
               (create_call "id-1" 1000 Samples.jane (Samples.world_of [])).1.2)
    = ["checking_phone_config"; "initiated"; "completed"; "completed"].
Proof. repeat split; reflexivity. Qed.

(** When the provider refuses the call, the background task marks the
    record failed, with the text of the error and the time, and sends the
    two events "checking_phone_config" and "failed" and no other. No poll
    is made: what the provider would answer to one has no part in the
    result, which is the same for every provider. *)
Theorem provider_refusal_marks_failed (call_id msg : string) (now : Z)
    (provider : nat → poll) (end_now : Z) (w : world) (r : row) :
  get_call call_id (db w) = Some r →
  emitted (initiate_call_async call_id (CreateError msg) now provider end_now w)
  = emitted w ++ [ {| ev_call_id := call_id; ev_status := "checking_phone_config" |};
                   {| ev_call_id := call_id; ev_status := "failed" |} ] ∧
  (∃ r', get_call call_id
           (db (initiate_call_async call_id (CreateError msg) now provider end_now w))
         = Some r' ∧
         r' !! "status" = Some (VStr "failed") ∧
         r' !! "error_message" = Some (VStr msg) ∧
         r' !! "completed_at" = Some (VTime now) ∧
         ∀ k, k ∉ ["status"; "error_message"; "completed_at"] → r' !! k = r !! k) ∧
  (∀ j, j ≠ call_id →
        get_call j (db (initiate_call_async call_id (CreateError msg) now provider
                          end_now w))
        = get_call j (db w)) ∧
  (∀ (provider' : nat → poll) (end_now' : Z),
     initiate_call_async call_id (CreateError msg) now provider' end_now' w
     = initiate_call_async call_id (CreateError msg) now provider end_now w).
Proof.
  intros Hr. unfold initiate_call_async. cbn [emit db emitted db_update].
  split; [by rewrite <- app_assoc|].
  change (match update_call call_id
                  (list_to_map [("status", VStr "checking_phone_config")]) (db w) with
          | Some (t, _) => t
          | None => db w
          end)
    with (db (db_update call_id [("status", VStr "checking_phone_config")] w)).
  set (w1 := db_update call_id [("status", VStr "checking_phone_config")] w).
  change (match update_call call_id
                  (list_to_map [("status", VStr "failed"); ("error_message", VStr msg);
                                ("completed_at", VTime now)]) (db w1) with
          | Some (t, _) => t
          | None => db w1
          end)
    with (db (db_update call_id [("status", VStr "failed"); ("error_message", VStr msg);
                                 ("completed_at", VTime now)] w1)).
  rewrite db_update_runs; [|done|done|done]. unfold w1.
  rewrite db_update_runs; [|done|done|done].
  split; [|split; [|done]].
  - eexists. split; [apply get_call_updated; [done|]; by apply get_call_updated|].
    split; [by apply lookup_union_Some_l|]. split; [by apply lookup_union_Some_l|].
    split; [by apply lookup_union_Some_l|].
    intros k Hk. rewrite lookup_union_r.
    + apply lookup_union_r, not_elem_of_list_to_map_1. cbn.
      intros [->|[]%elem_of_nil]%elem_of_cons. apply Hk. left.
    + apply not_elem_of_list_to_map_1. cbn. done.
  - intros j Hj. unfold get_call. by rewrite !filter_updated_other.
Qed.

Lemma provider_refusal_marks_failed_witness :
  ev_status <$>
    emitted (initiate_call_async "id-1" (CreateError "Call API failed: 401 - bad key")
               1001 Samples.completed 1100
               (Samples.world_of [Samples.call_row "id-1" "initiating" 0]))
  = ["checking_phone_config"; "failed"] ∧
  ∃ r', get_call "id-1"
          (db (initiate_call_async "id-1" (CreateError "Call API failed: 401 - bad key")
                 1001 Samples.completed 1100
                 (Samples.world_of [Samples.call_row "id-1" "initiating" 0])))
        = Some r' ∧
        r' !! "status" = Some (VStr "failed") ∧
        r' !! "error_message" = Some (VStr "Call API failed: 401 - bad key").
Proof.
  destruct (provider_refusal_marks_failed "id-1" "Call API failed: 401 - bad key" 1001
              Samples.completed 1100
              (Samples.world_of [Samples.call_row "id-1" "initiating" 0])
              (Samples.call_row "id-1" "initiating" 0))
    as (Hev & (r' & Hget & Hst & Hmsg & _) & _).
  - reflexivity.
  - split; [by rewrite Hev|]. exists r'. split; [exact Hget|]. split; [exact Hst|exact Hmsg].
Defined.

(** C1, as it is worded, fails. The first poll reads "ringing" and the
    loop goes on; the call is then terminated, and its record says
    "terminated"; the next pass of the loop reads "completed" and writes
    that over it. The same happens when the whole monitor runs after the
    termination. *)
Lemma poll_result_overwrites_terminated :
  Samples.first_poll.1.1 = Continue ∧
  status_of "c1" (db Samples.terminated_between_polls) = Some (VStr "terminated") ∧
  Samples.second_poll.1.1 = Break ∧
  status_of "c1" (db Samples.second_poll.2) = Some (VStr "completed") ∧
  status_of "c1"
    (db (monitor_call_progress "c1" Samples.completed 99
           (terminate_call "c1" 10
              (Samples.world_of [Samples.call_row "c1" "initiated" 0])).2).2)
    = Some (VStr "completed").
Proof. repeat split; reflexivity. Qed.

End monitor.

(** ** [cleanup_stuck_calls] *)
Section cleanup.
Import Models Database.

Lemma List_filter_sublist {A : Type} (f : A → bool) (l : list A) :
  List.filter f l `sublist_of` l.
Proof.
  induction l as [|x l IH]; [constructor|]. cbn [List.filter].
  destruct (f x); by constructor.
Qed.

Lemma stored_ids (s : store) :
  Spec.store_wf s → id <$> (map_to_list s).*2 = (map_to_list s).*1.
Proof.
  intros Hwf.
  assert (Forall (λ kc : string * Call, id kc.2 = kc.1) (map_to_list s)) as Hall.
  { apply Forall_forall. intros [k c] Hkc. apply elem_of_map_to_list in Hkc.
    by apply Hwf. }
  induction Hall as [|[k c] l Hkc _ IH]; [done|].
  cbn in *. by rewrite Hkc, IH.
Qed.

Lemma listed_sublist (limit offset : nat) (s : store) :
  ∃ l, l ≡ₚ (map_to_list s).*2 ∧
       Database.get_calls limit offset None s `sublist_of` l.
Proof.
  exists (merge_sort newer (map_to_list s).*2). split.
  - apply merge_sort_Permutation.
  - unfold Database.get_calls. etrans; [apply sublist_take|apply sublist_drop].
Qed.

Lemma stuck_calls_stored (cutoff : Z) (s : store) :
  Spec.store_wf s →
  NoDup (id <$> List.filter (CallService.is_stuck cutoff) (CallService.get_calls 1000 0 None s)) ∧
  ∀ c, c ∈ List.filter (CallService.is_stuck cutoff) (CallService.get_calls 1000 0 None s) →
       s !! id c = Some c.
Proof.
  intros Hwf. unfold CallService.get_calls. cbn [Py.truthy].
  destruct (listed_sublist 1000 0 s) as (l & Hperm & Hsub).
  assert (List.filter (CallService.is_stuck cutoff) (Database.get_calls 1000 0 None s)
          `sublist_of` l) as Hsub'.
  { etrans; [apply List_filter_sublist|done]. }
  split.
  - eapply sublist_NoDup; [|by apply fmap_sublist].
    rewrite Hperm, stored_ids by done. apply NoDup_fst_map_to_list.
  - intros c Hc. eapply elem_of_sublist in Hc; [|done].
    rewrite Hperm in Hc. apply list_elem_of_fmap in Hc as ([k c'] & -> & Hkc).
    apply elem_of_map_to_list in Hkc. cbn. by rewrite (Hwf _ _ Hkc).
Qed.

(** Every store built by [save_call] and [update_call] keeps each call
    under its own identifier. *)
Lemma store_wf_invariant :
  Spec.store_wf ∅ ∧
  (∀ c s, Spec.store_wf s → Spec.store_wf (save_call c s).1) ∧
  (∀ i u s, Spec.store_wf s → Spec.store_wf (update_call i u s).1).
Proof.
  split; [|split].
  - intros k c H. by rewrite lookup_empty in H.
  - intros c s Hwf. unfold save_call. destruct (s !! id c); [done|]. cbn.
    intros k c' [[<- <-]|[_ H]]%lookup_insert_Some; [done|by apply Hwf].
  - intros i u s Hwf. unfold update_call. destruct (s !! i) as [c|] eqn:Hi; [|done].
    cbn. intros k c' [[<- <-]|[_ H]]%lookup_insert_Some; [|by apply Hwf].
    cbn. by apply Hwf.
Qed.

Lemma update_call_stored (i : string) (u : partial) (s : store) (c : Call) :
  s !! i = Some c → update_call i u s = (<[i := merge_call u c]> s, true).
Proof. intros H. unfold update_call. by rewrite H. Qed.

(** The loop marks the calls of its list, each with the clock of its turn,
    and touches no other call. *)
Lemma cleanup_loop_spec (clock : nat → Z) (stuck_calls : list Call) :
  ∀ (k count : nat) (s : store),
  NoDup (id <$> stuck_calls) →
  (∀ c, c ∈ stuck_calls → s !! id c = Some c) →
  (∀ i, i ∉ id <$> stuck_calls →
        (CallService.cleanup_loop clock k stuck_calls count s).1 !! i = s !! i) ∧
  (∀ j c, stuck_calls !! j = Some c →
        (CallService.cleanup_loop clock k stuck_calls count s).1 !! id c
        = Some (merge_call (CallService.failed_by_cleanup (clock (k + j)%nat)) c)) ∧
  (CallService.cleanup_loop clock k stuck_calls count s).2
    = (count + length stuck_calls)%nat.
Proof.
  induction stuck_calls as [|call rest IH]; intros k count s Hnd Hin.
  - cbn. split; [done|]. split; [done|lia].
  - cbn [CallService.cleanup_loop].
    rewrite (update_call_stored _ _ _ call) by (apply Hin; left).
    rewrite fmap_cons in Hnd. apply NoDup_cons in Hnd as [Hfresh Hnd].
    destruct (IH (S k) (S count)
                (<[id call := merge_call (CallService.failed_by_cleanup (clock k)) call]> s)
                Hnd) as (Hout & Hhit & Hcount).
    { intros c Hc. rewrite lookup_insert_ne; [apply Hin; by right|].
      intros Heq. apply Hfresh. rewrite Heq. apply list_elem_of_fmap. by exists c. }
    split; [|split].
    + intros i Hi. rewrite fmap_cons, not_elem_of_cons in Hi. destruct Hi as [Hne Hi].
      rewrite Hout by done. by rewrite lookup_insert_ne.
    + intros [|j] c Hj.
      * cbn in Hj. injection Hj as <-. rewrite Hout by done.
        rewrite lookup_insert_eq. by rewrite Nat.add_0_r.
      * cbn in Hj. rewrite (Hhit j c Hj).
        by replace (k + S j)%nat with (S k + j)%nat by lia.
    + rewrite Hcount. cbn [length]. lia.
Qed.

Lemma stuck_calls_elem (cutoff : Z) (s : store) (c : Call) :
  c ∈ List.filter (CallService.is_stuck cutoff) (CallService.get_calls 1000 0 None s) ↔
  c ∈ CallService.get_calls 1000 0 None s ∧
  status c ∈ [DIALING; IN_PROGRESS; INITIATING] ∧ created_at c < cutoff.
Proof.
  rewrite list_elem_of_In, filter_In, <- list_elem_of_In.
  unfold CallService.is_stuck.
  rewrite andb_true_iff, bool_decide_eq_true, Z.ltb_lt. tauto.
Qed.

(** What the sweep does to one stored call. *)
Lemma service_cleanup_lookup (now : Z) (clock : nat → Z) (s : store)
    (k : string) (c : Call) :
  Spec.store_wf s →
  s !! k = Some c →
  (c ∈ List.filter (CallService.is_stuck (now - CallService.thirty_minutes))
         (CallService.get_calls 1000 0 None s) →
   ∃ j, (CallService.cleanup_stuck_calls now clock s).1 !! k
        = Some (merge_call (CallService.failed_by_cleanup (clock j)) c)) ∧
  (c ∉ List.filter (CallService.is_stuck (now - CallService.thirty_minutes))
         (CallService.get_calls 1000 0 None s) →
   (CallService.cleanup_stuck_calls now clock s).1 !! k = Some c).
Proof.
  intros Hwf Hk. unfold CallService.cleanup_stuck_calls.
  set (stuck_calls := List.filter _ _).
  destruct (stuck_calls_stored (now - CallService.thirty_minutes) s Hwf) as [Hnd Hstored].
  fold stuck_calls in Hnd, Hstored.
  destruct (cleanup_loop_spec clock stuck_calls 0 0 s Hnd Hstored) as (Hout & Hhit & _).
  split.
  - intros [j Hj]%list_elem_of_lookup. exists (0 + j)%nat.
    rewrite <- (Hwf _ _ Hk). by rewrite (Hhit j c Hj).
  - intros Hnot. rewrite Hout; [done|].
    intros (c' & Hid & Hc')%list_elem_of_fmap.
    pose proof (Hstored c' Hc') as Hs'. rewrite <- Hid in Hs'.
    by assert (c' = c) as -> by congruence.
Qed.

Lemma sweep_store_wf : Spec.store_wf Samples.sweep_store.
Proof.
  intros k c H. apply elem_of_list_to_map_2 in H.
  repeat (apply elem_of_cons in H as [[= -> ->]|H]; [reflexivity|]).
  by apply elem_of_nil in H.
Qed.

(** C7, as the code has it. On a store that keeps every call under its
    own identifier, [CallService.cleanup_stuck_calls] marks as failed, with
    its message and a completion time, exactly the calls among the
    thousand newest that are dialing, in progress or initiating and were
    created more than thirty minutes before the sweep; it leaves every
    other call, a pending one too, as it was. With a call in progress for
    forty minutes and one for five, only the first is marked. *)
Theorem cleanup_marks_stuck_calls (now : Z) (clock : nat → Z) (s : store)
    (k : string) (c : Call) :
  Spec.store_wf s →
  s !! k = Some c →
  (c ∈ CallService.get_calls 1000 0 None s →
   status c ∈ [DIALING; IN_PROGRESS; INITIATING] →
   created_at c < now - CallService.thirty_minutes →
   ∃ at_time,
     (CallService.cleanup_stuck_calls now clock s).1 !! k =
     Some {| id := id c; request := request c; status := FAILED;
             synthflow_call_id := synthflow_call_id c;
             created_at := created_at c; completed_at := Some at_time;
             duration := duration c; transcript := transcript c;
             success := success c;
             error_message := Some "Call timeout - automatically cleaned up";
             metadata := metadata c |}) ∧
  (¬ (c ∈ CallService.get_calls 1000 0 None s ∧
      status c ∈ [DIALING; IN_PROGRESS; INITIATING] ∧
      created_at c < now - CallService.thirty_minutes) →
   (CallService.cleanup_stuck_calls now clock s).1 !! k = Some c) ∧
  (CallService.cleanup_stuck_calls Samples.fifty_minutes clock Samples.sweep_store).1
  = <["old" := merge_call (CallService.failed_by_cleanup (clock 0%nat))
                 (Samples.call_of "old" IN_PROGRESS 600000000)]> Samples.sweep_store.
Proof.
  intros Hwf Hk.
  destruct (service_cleanup_lookup now clock s k c Hwf Hk) as [Hhit Hout].
  split; [|split].
  - intros Hl Hst Hold. destruct Hhit as [j Hj]; [by apply stuck_calls_elem|].
    by exists (clock j).
  - intros Hnot. apply Hout. by rewrite stuck_calls_elem.
  - by vm_compute.
Qed.

Lemma cleanup_marks_stuck_calls_witness :
  ∃ at_time,
    (CallService.cleanup_stuck_calls Samples.fifty_minutes (λ _, Samples.fifty_minutes)
       Samples.sweep_store).1 !! "old" =
    Some {| id := "old";
            request := request (Samples.call_of "old" IN_PROGRESS 600000000);
            status := FAILED; synthflow_call_id := Some "prov-1";
            created_at := 600000000; completed_at := Some at_time;
            duration := None; transcript := None; success := None;
            error_message := Some "Call timeout - automatically cleaned up";
            metadata := ∅ |}.
Proof.
  refine (proj1 (cleanup_marks_stuck_calls Samples.fifty_minutes
                   (λ _, Samples.fifty_minutes) Samples.sweep_store "old"
                   (Samples.call_of "old" IN_PROGRESS 600000000)
                   sweep_store_wf _) _ _ _).
  - reflexivity.
  - replace (CallService.get_calls 1000 0 None Samples.sweep_store)
      with [ Samples.call_of "new" IN_PROGRESS 2700000000;
             Samples.call_of "old" IN_PROGRESS 600000000;
             Samples.call_of "waiting" PENDING 600000000 ] by (by vm_compute).
    right. left.
  - right. left.
  - by vm_compute.
Defined.

(** C7, as it is worded, fails: a pending call is not in a terminal state,
    yet the sweep leaves one that is forty minutes old as it was. *)
Lemma cleanup_leaves_old_pending_call :
  Spec.is_terminal PENDING = false ∧
  created_at (Samples.call_of "waiting" PENDING 600000000)
    < Samples.fifty_minutes - CallService.thirty_minutes ∧
  Samples.sweep_store !! "waiting" = Some (Samples.call_of "waiting" PENDING 600000000) ∧
  (CallService.cleanup_stuck_calls Samples.fifty_minutes (λ _, Samples.fifty_minutes)
     Samples.sweep_store).1 !! "waiting"
    = Some (Samples.call_of "waiting" PENDING 600000000).
Proof. repeat split; by vm_compute. Qed.

(** The sweep of [app.py] marks with "timeout", not with "failed", and
    only rows that are in progress or dialing. *)
Lemma app_cleanup_lookup (now : Z) (w : App.world) (i : nat) (r : gmap string App.value) :
  App.db w !! i = Some r →
  App.db (App.cleanup_stuck_calls now w).2 !! i =
  Some (if App.stuck now r
        then <["completed_at" := App.VTime now]> (<["status" := App.VStr "timeout"]> r)
        else r).
Proof. intros H. cbn. by rewrite list_lookup_fmap, H. Qed.

Lemma terminal_row_not_stuck (now : Z) (r : gmap string App.value) :
  Spec.is_terminal_row r → App.stuck now r = false.
Proof.
  intros (st & Hst & Hin). unfold App.stuck. rewrite Hst.
  unfold Spec.terminal_statuses in Hin.
  repeat (apply elem_of_cons in Hin as [->|Hin]; [reflexivity|]).
  by apply elem_of_nil in Hin.
Qed.

Lemma service_terminate_keeps_terminal (call_id : string) (now : Z) (s : store)
    (k : string) (c : Call) :
  s !! k = Some c → Spec.is_terminal (status c) = true →
  (CallService.terminate_call call_id now s).1 !! k = Some c.
Proof.
  intros Hk Hterm. unfold CallService.terminate_call, CallService.get_call, get_call.
  destruct (s !! call_id) as [c'|] eqn:Hc'; [|done].
  destruct (bool_decide (status c' ∈ [DIALING; IN_PROGRESS])) eqn:E; [|done].
  cbn [negb]. unfold update_call. rewrite Hc'. cbn [fst].
  destruct (decide (call_id = k)) as [->|Hne]; [|by rewrite lookup_insert_ne].
  assert (c' = c) as -> by congruence.
  apply bool_decide_eq_true in E.
  apply elem_of_cons in E as [E|E]; [by rewrite E in Hterm|].
  apply elem_of_cons in E as [E|E]; [by rewrite E in Hterm|].
  by apply elem_of_nil in E.
Qed.

Lemma terminal_not_swept (st : CallStatus) :
  Spec.is_terminal st = true → st ∉ [DIALING; IN_PROGRESS; INITIATING].
Proof.
  intros Hterm Hin.
  repeat (apply elem_of_cons in Hin as [->|Hin]; [discriminate|]).
  by apply elem_of_nil in Hin.
Qed.

End cleanup.

(** ** Terminal records *)
Section terminal.
Import App.

(** C1, as the code has it. A record in a terminal status is left as it is
    by the sweep of [app.py], by [CallService.terminate_call] and by the
    sweep of [CallService]. [monitor_call_progress] ends with the first
    poll that reads a finished status, and the one update of that poll is
    all it writes; it writes it without reading the stored status, also
    over a record that is terminal already. The update is one statement:
    when the duration that the poll reads is an integer outside 64 bits
    the statement raises, and the run writes nothing at all. *)
Theorem terminal_records_and_the_monitor
    (now : Z) (w : world) (i : nat) (r : row)
    (clock : nat → Z) (s : gmap string Models.Call) (k : string) (c : Models.Call)
    (target call_id : string) (provider : nat → poll) (end_now : Z) (n : nat)
    (st : string) :
  db w !! i = Some r → Spec.is_terminal_row r →
  Spec.store_wf s → s !! k = Some c → Spec.is_terminal (Models.status c) = true →
  (1 ≤ n ≤ max_polls)%nat →
  (∀ j, (1 ≤ j < n)%nat → Spec.keeps_polling j (provider j) = true) →
  Spec.reads_status st (provider n) → st ∈ finished_statuses →
  db (cleanup_stuck_calls now w).2 !! i = Some r ∧
  (CallService.terminate_call target now s).1 !! k = Some c ∧
  (CallService.cleanup_stuck_calls now clock s).1 !! k = Some c ∧
  poll_count (monitor_call_progress call_id provider end_now w).1 = n ∧
  (Spec.duration_fits (provider n) = true →
   db (monitor_call_progress call_id provider end_now w).2
   = Spec.updated call_id (Spec.finished_updates call_id (provider n) st) (db w)) ∧
  (Spec.duration_fits (provider n) = false →
   db (monitor_call_progress call_id provider end_now w).2 = db w).
Proof.
  intros Hi Hr Hwf Hk Hc Hn Hpre Hread Hfin.
  split; [|split; [|split]].
  - rewrite (app_cleanup_lookup now w i r Hi).
    by rewrite terminal_row_not_stuck.
  - by apply service_terminate_keeps_terminal.
  - apply (service_cleanup_lookup now clock s k c Hwf Hk).
    intros [_ [Hst _]]%stuck_calls_elem. by apply terminal_not_swept in Hst.
  - destruct (monitor_writes_once call_id provider end_now w n st Hn Hpre Hread Hfin)
      as [Hcount Hdb].
    split; [done|]. split; intros Hfit; by rewrite Hfit in Hdb.
Qed.

Lemma terminal_records_and_the_monitor_witness :
  db (cleanup_stuck_calls 3000
        (Samples.world_of [Samples.call_row "c1" "terminated" 0])).2 !! 0%nat
    = Some (Samples.call_row "c1" "terminated" 0) ∧
  (CallService.terminate_call "new" 3000
     (<["done" := Samples.call_of "done" Models.COMPLETED 0]> Samples.sweep_store)).1
    !! "done" = Some (Samples.call_of "done" Models.COMPLETED 0) ∧
  (CallService.cleanup_stuck_calls 3000 (λ _, 3000)
     (<["done" := Samples.call_of "done" Models.COMPLETED 0]> Samples.sweep_store)).1
    !! "done" = Some (Samples.call_of "done" Models.COMPLETED 0) ∧
  poll_count (monitor_call_progress "c1" Samples.completed 99
                (Samples.world_of [Samples.call_row "c1" "terminated" 0])).1 = 1%nat ∧
  db (monitor_call_progress "c1" Samples.completed 99
        (Samples.world_of [Samples.call_row "c1" "terminated" 0])).2
    = Spec.updated "c1"
        (Spec.finished_updates "c1" (Samples.completed 1) "completed")
        (db (Samples.world_of [Samples.call_row "c1" "terminated" 0])).
Proof.
  assert (Spec.duration_fits (Samples.completed 1) = true) as Hfits by reflexivity.
  refine ((λ H, conj (proj1 H) (conj (proj1 (proj2 H)) (conj (proj1 (proj2 (proj2 H)))
            (conj (proj1 (proj2 (proj2 (proj2 H))))
               (proj1 (proj2 (proj2 (proj2 (proj2 H)))) Hfits))))) _).
  apply (terminal_records_and_the_monitor 3000
           (Samples.world_of [Samples.call_row "c1" "terminated" 0]) 0
           (Samples.call_row "c1" "terminated" 0) (λ _, 3000)
           (<["done" := Samples.call_of "done" Models.COMPLETED 0]> Samples.sweep_store)
           "done" (Samples.call_of "done" Models.COMPLETED 0)
           "new" "c1" Samples.completed 99 1 "completed").
  - reflexivity.
  - exists "terminated". split; [reflexivity|]. do 4 right. left.
  - intros k c H. apply lookup_insert_Some in H as [[<- <-]|[_ H]]; [reflexivity|].
    by apply sweep_store_wf.
  - reflexivity.
  - reflexivity.
  - unfold max_polls. lia.
  - intros j Hj. lia.
  - by eexists _, _.
  - left.
Defined.

End terminal.

(** ** [CallDatabase]: saving, finding and updating *)
Section database.
Import App Lifecycle.

Lemma filter_has_id_none (call_id : string) (t : table) :
  get_call call_id t = None → List.filter (has_id call_id) t = [].
Proof. unfold get_call. by destruct (List.filter _ _). Qed.

Lemma existsb_has_id_none (call_id : string) (t : table) :
  get_call call_id t = None → existsb (has_id call_id) t = false.
Proof.
  intros H%filter_has_id_none. induction t as [|r t IH]; [done|].
  cbn [List.filter existsb] in *. destruct (has_id call_id r); [done|]. by apply IH.
Qed.

Lemma fmap_has_id_none (call_id : string) (f : row → row) (t : table) :
  get_call call_id t = None →
  (λ r : row, if has_id call_id r then f r else r) <$> t = t.
Proof.
  intros H%filter_has_id_none. induction t as [|r t IH]; [done|].
  cbn [List.filter] in H. rewrite fmap_cons.
  destruct (has_id call_id r); [done|]. by rewrite IH.
Qed.

(** [save_call], then [get_call]: a call that is saved is found under its
    identifier, with the values given as the TEXT columns keep them, the
    defaults of the keys left out ("" for [additional_info] and
    [call_id], "pending" for [status]), the creation time, and NULL in
    the result columns; the identifier was not in the table before, and
    every other call is found as before. *)
Theorem save_call_then_get_call (now : Z) (call_data : gmap string value)
    (t t' : table) (call_id : string) :
  call_data !! "id" = Some (VStr call_id) →
  save_call now call_data t = (t', true) →
  get_call call_id t = None ∧
  (∃ r, get_call call_id t' = Some r ∧
        (∀ k, k ∈ ["id"; "phone_number"; "caller_name"; "caller_phone"; "account_action"] →
              r !! k = as_text <$> call_data !! k) ∧
        (∀ k, k ∈ not_null_columns → r !! k ≠ Some VNone) ∧
        r !! "additional_info"
          = Some (as_text (default (VStr "") (call_data !! "additional_info"))) ∧
        r !! "status" = Some (as_text (default (VStr "pending") (call_data !! "status"))) ∧
        r !! "call_id" = Some (as_text (default (VStr "") (call_data !! "call_id"))) ∧
        r !! "created_at" = Some (VTime now) ∧
        (∀ k, k ∈ ["completed_at"; "duration"; "transcript"; "success"; "error_message"] →
              r !! k = Some VNone)) ∧
  (∀ j, j ≠ call_id → get_call j t' = get_call j t) ∧
  ids t' = ids t ++ [Some (VStr call_id)].
Proof.
  intros Hid. unfold save_call. rewrite Hid.
  destruct (call_data !! "phone_number") as [pn|] eqn:Hpn; [|by intros [= _ ?]].
  destruct (call_data !! "caller_name") as [cn|] eqn:Hcn; [|by intros [= _ ?]].
  destruct (call_data !! "caller_phone") as [cp|] eqn:Hcp; [|by intros [= _ ?]].
  destruct (call_data !! "account_action") as [aa|] eqn:Haa; [|by intros [= _ ?]].
  destruct (_ || _ || _) eqn:E; [by intros [= _ ?]|].
  apply orb_false_iff in E as [E Hfresh]. apply orb_false_iff in E as [_ Hnull].
  apply bool_decide_eq_false in Hnull.
  rewrite bool_decide_false in Hfresh by done. cbn [negb andb as_text] in Hfresh.
  apply bool_decide_eq_false in Hfresh. intros [= <-].
  assert (List.filter (has_id call_id) t = []) as Hnone by by apply filter_has_id_fresh.
  split; [unfold get_call; by rewrite Hnone|]. split; [|split].
  - eexists. split.
    { unfold get_call. rewrite List.filter_app, Hnone. cbn.
      unfold has_id. by rewrite bool_decide_true. }
    split.
    { intros k Hk.
      repeat (apply elem_of_cons in Hk as [->|Hk]); [..|by apply elem_of_nil in Hk];
        by rewrite ?Hid, ?Hpn, ?Hcn, ?Hcp, ?Haa. }
    split.
    { intros k Hk. unfold not_null_columns in Hk.
      repeat (apply elem_of_cons in Hk as [->|Hk]); [..|by apply elem_of_nil in Hk];
        (change (Some (as_text ?v) ≠ Some VNone) || idtac);
        intros [= Hv]; apply Hnull;
        [ assert (pn = VNone) as -> by (by destruct pn); left
        | assert (cn = VNone) as -> by (by destruct cn); right; left
        | assert (cp = VNone) as -> by (by destruct cp); do 2 right; left
        | assert (aa = VNone) as -> by (by destruct aa); do 3 right; left ]. }
    do 4 (split; [reflexivity|]).
    intros k Hk.
    repeat (apply elem_of_cons in Hk as [->|Hk]); [..|by apply elem_of_nil in Hk];
      reflexivity.
  - intros j Hj. unfold get_call. rewrite List.filter_app. cbn [List.filter].
    unfold has_id at 2.
    rewrite bool_decide_false; [by rewrite app_nil_r|].
    intros [= ?]. done.
  - unfold ids. by rewrite fmap_app.
Qed.

Lemma save_call_then_get_call_witness :
  get_call "id-1" [] = None ∧
  ∃ r, get_call "id-1" [inserted_row 7 (new_call_data "id-1" Samples.jane)
                          (VStr "id-1") (VStr "+15553334444") (VStr "Jane Doe")
                          (VStr "+15551112222") (VStr "close account")] = Some r ∧
       r !! "status" = Some (VStr "initiating") ∧
       r !! "call_id" = Some (VStr "").
Proof.
  destruct (save_call_then_get_call 7 (new_call_data "id-1" Samples.jane) []
              [inserted_row 7 (new_call_data "id-1" Samples.jane)
                 (VStr "id-1") (VStr "+15553334444") (VStr "Jane Doe")
                 (VStr "+15551112222") (VStr "close account")] "id-1")
    as (Hnone & (r & Hget & _ & _ & _ & Hst & Hc & _) & _).
  - reflexivity.
  - reflexivity.
  - split; [exact Hnone|]. exists r. split; [exact Hget|]. split; [exact Hst|exact Hc].
Defined.

(** [update_call] for an identifier that no row has: the statement runs
    and selects nothing, the table stays as it was, and the answer is
    [True] all the same. *)
Theorem update_call_unknown_id (call_id : string) (updates : gmap string value)
    (t : table) :
  get_call call_id t = None →
  updates ≠ ∅ →
  (∀ k, k ∈ dom updates → k ∈ columns) →
  (∀ k v, updates !! k = Some v → overflows v = false ∧ is_Some (stored k v)) →
  update_call call_id updates t = Some (t, true).
Proof.
  intros Hnone Hne Hcols Hvals. unfold update_call, execute_update.
  rewrite bool_decide_false by done.
  assert (forallb (λ k, bool_decide (k ∈ columns)) (elements (dom updates)) = true) as ->.
  { apply forallb_forall. intros k Hk%list_elem_of_In%elem_of_elements.
    apply bool_decide_eq_true. by apply Hcols. }
  assert (existsb overflows ((map_to_list updates).*2) = false) as ->.
  { destruct (existsb _ _) eqn:E; [|done].
    apply existsb_exists in E as (v & Hv%list_elem_of_In & Ho).
    apply list_elem_of_fmap in Hv as ([k v'] & -> & Hkv%elem_of_map_to_list).
    destruct (Hvals k v' Hkv) as [Hno _]. cbn in Ho. congruence. }
  assert (forallb (λ kv : string * value, bool_decide (is_Some (stored kv.1 kv.2)))
            (map_to_list updates) = true) as ->.
  { apply forallb_forall. intros [k v] Hkv%list_elem_of_In%elem_of_map_to_list.
    apply bool_decide_eq_true. by destruct (Hvals k v Hkv) as [_ Hs]. }
  rewrite existsb_has_id_none by done. cbn [negb andb].
  by rewrite fmap_has_id_none.
Qed.

Lemma update_call_unknown_id_witness :
  update_call "no-such-call" {["status" := VStr "failed"]}
    [Samples.call_row "c1" "dialing" 0]
  = Some ([Samples.call_row "c1" "dialing" 0], true).
Proof.
  apply (update_call_unknown_id "no-such-call" {["status" := VStr "failed"]}
           [Samples.call_row "c1" "dialing" 0]).
  - reflexivity.
  - apply insert_non_empty.
  - intros k Hk. rewrite dom_singleton_L in Hk. apply elem_of_singleton in Hk as ->.
    do 6 right. left.
  - intros k v [<- <-]%lookup_singleton_Some. split; [reflexivity|]. by eexists.
Defined.

End database.

(** ** What the background task leaves as it is *)
Section frame.
Import App Lifecycle.

Lemma row_step_refl (call_id : string) (r : row) : row_step call_id r r.
Proof. by split. Qed.

Lemma row_step_trans (call_id : string) (r1 r2 r3 : row) :
  row_step call_id r1 r2 → row_step call_id r2 r3 → row_step call_id r1 r3.
Proof.
  intros [Ha Hb] [Hc Hd]. split.
  - intros Hid. rewrite Hc; [by apply Ha|].
    unfold has_id in *. rewrite Hb; [done|]. by left.
  - intros k Hk. by rewrite Hd, Hb.
Qed.

Lemma table_step_refl (call_id : string) (t : table) : table_step call_id t t.
Proof. apply Forall_Forall2_diag, Forall_forall. intros r _. apply row_step_refl. Qed.

Lemma table_step_trans (call_id : string) (t1 t2 t3 : table) :
  table_step call_id t1 t2 → table_step call_id t2 t3 → table_step call_id t1 t3.
Proof.
  unfold table_step. intros H12. revert t3.
  induction H12 as [|r1 r2 t1 t2 Hr _ IH]; intros t3 H23.
  - by inversion H23.
  - inversion H23 as [|? r3 ? t3' Hr' H23']; subst.
    constructor; [by eapply row_step_trans|by apply IH].
Qed.

(** One [db.update_call] for the call, with assignments that spare the
    request columns, is a step for the call, whether the statement runs
    or fails. *)
Lemma db_update_step (call_id : string) (l : list (string * value)) (w : world) :
  spares_request l = true →
  table_step call_id (db w) (db (db_update call_id l w)).
Proof.
  intros Hl. unfold db_update, update_call. cbn [db].
  destruct (execute_update _ _ _) as [t'| |] eqn:E; [|apply table_step_refl..].
  unfold execute_update in E.
  destruct (bool_decide (_ = ∅)); [done|].
  destruct (negb _); [done|].
  destruct (existsb overflows _); [done|].
  destruct (negb _); [done|].
  destruct (_ && _); [done|]. injection E as <-.
  unfold table_step. apply Forall2_fmap_r, Forall_Forall2_diag, Forall_forall.
  intros r _. unfold compose. destruct (has_id call_id r) eqn:Hid; [|apply row_step_refl].
  split; [congruence|]. intros k Hk. apply lookup_union_r.
  rewrite map_lookup_imap.
  assert ((list_to_map l : gmap string value) !! k = None) as ->; [|done].
  apply not_elem_of_list_to_map_1. intros Hin.
  unfold spares_request in Hl. rewrite forallb_forall in Hl.
  apply list_elem_of_In, Hl, negb_true_iff, bool_decide_eq_false in Hin. done.
Qed.

Lemma monitor_iter_step (call_id : string) (p : poll) (m : monitor) (w : world) :
  table_step call_id (db w) (db (monitor_iter call_id p m w).2).
Proof.
  unfold monitor_iter. destruct (p_status p) as [msg|calls duration].
  - destruct (3 <? _)%nat; apply table_step_refl.
  - set (w1 := if negb _ then emit _ _ w else w).
    assert (db w1 = db w) as Hw1 by (unfold w1; by destruct (negb _)).
    destruct (bool_decide (_ ∈ _)).
    + cbn [snd emit db]. rewrite <- Hw1. by apply db_update_step.
    + destruct (_ && _).
      * cbn [snd emit db]. rewrite <- Hw1. by apply db_update_step.
      * cbn [snd]. rewrite Hw1. apply table_step_refl.
Qed.

Lemma monitor_loop_step (call_id : string) (provider : nat → poll) (fuel : nat) :
  ∀ (m : monitor) (w : world),
  table_step call_id (db w) (db (monitor_loop fuel call_id provider m w).2).
Proof.
  induction fuel as [|fuel IH]; intros m w; cbn [monitor_loop].
  - apply table_step_refl.
  - destruct (_ <? _)%nat; [|apply table_step_refl].
    pose proof (monitor_iter_step call_id (provider (S (poll_count m))) m w) as Hs.
    destruct (monitor_iter _ _ _ _) as [[[] m'] w']; cbn [snd] in *; [|done].
    eapply table_step_trans; [done|apply IH].
Qed.

Lemma monitor_finish_step (call_id : string) (now : Z) (m : monitor) (w : world) :
  table_step call_id (db w) (db (monitor_finish call_id now m w)).
Proof.
  unfold monitor_finish. destruct (_ && _); [|apply table_step_refl].
  cbn [emit db]. by apply db_update_step.
Qed.

Lemma monitor_call_progress_step (call_id : string) (provider : nat → poll)
    (end_now : Z) (w : world) :
  table_step call_id (db w) (db (monitor_call_progress call_id provider end_now w).2).
Proof.
  unfold monitor_call_progress.
  pose proof (monitor_loop_step call_id provider max_polls
                {| poll_count := 0; last_status := None |} w) as Hs.
  destruct (monitor_loop _ _ _ _ _) as [m' w']. cbn [snd] in *.
  eapply table_step_trans; [done|apply monitor_finish_step].
Qed.

Lemma table_step_update (call_id : string) (l : list (string * value)) (t : table)
    (w : world) :
  spares_request l = true → table_step call_id t (db w) →
  table_step call_id t (db (db_update call_id l w)).
Proof.
  intros Hl Ht. eapply table_step_trans; [done|]. by apply db_update_step.
Qed.

Lemma initiate_call_async_step (call_id : string) (result : create_result)
    (now : Z) (provider : nat → poll) (end_now : Z) (w : world) :
  table_step call_id (db w)
    (db (initiate_call_async call_id result now provider end_now w)).
Proof.
  unfold initiate_call_async.
  destruct result as [msg|synthflow_call_id]; [|destruct (_ && _)].
  - cbn [emit db]. apply table_step_update; [done|]. cbn [emit db].
    apply table_step_update; [done|]. apply table_step_refl.
  - eapply table_step_trans; [|apply monitor_call_progress_step].
    cbn [emit db]. apply table_step_update; [done|]. cbn [emit db].
    apply table_step_update; [done|]. apply table_step_refl.
  - cbn [emit db]. apply table_step_update; [done|]. cbn [emit db].
    apply table_step_update; [done|]. cbn [emit db].
    apply table_step_update; [done|]. apply table_step_refl.
Qed.

Lemma table_step_filter (call_id j : string) (t t' : table) :
  table_step call_id t t' → j ≠ call_id →
  List.filter (has_id j) t' = List.filter (has_id j) t.
Proof.
  intros H Hne. induction H as [|r r' t t' [Hsame Hreq] _ IH]; [done|].
  cbn [List.filter].
  assert (has_id j r' = has_id j r) as Hj.
  { unfold has_id. rewrite Hreq; [done|by left]. }
  rewrite Hj. destruct (has_id j r) eqn:E; [|done].
  rewrite IH, Hsame; [done|].
  unfold has_id in *. apply bool_decide_eq_true in E. apply bool_decide_eq_false.
  rewrite E. by intros [= ->].
Qed.

Lemma table_step_ids (call_id : string) (t t' : table) :
  table_step call_id t t' → ids t' = ids t.
Proof.
  intros H. unfold ids. induction H as [|r r' t t' [_ Hreq] _ IH]; [done|].
  rewrite !fmap_cons, IH, Hreq; [done|by left].
Qed.

Lemma table_step_get_call (call_id : string) (t t' : table) (r : row) :
  table_step call_id t t' → get_call call_id t = Some r →
  ∃ r', get_call call_id t' = Some r' ∧
        ∀ k, k ∈ request_columns → r' !! k = r !! k.
Proof.
  unfold get_call. intros H.
  induction H as [|r0 r0' t t' [Hsame Hreq] _ IH]; [done|].
  cbn [List.filter].
  assert (has_id call_id r0' = has_id call_id r0) as ->.
  { unfold has_id. rewrite Hreq; [done|by left]. }
  destruct (has_id call_id r0); [|done].
  cbn. intros [= <-]. by exists r0'.
Qed.

(** Whatever the provider answers, the background task of a call adds no
    row and removes none, leaves the rows of all other calls as they
    were, and in the row of its own call it leaves the identifier, the
    request and the creation time as they were. *)
Theorem background_task_keeps_requests (call_id : string) (result : create_result)
    (now : Z) (provider : nat → poll) (end_now : Z) (w : world) :
  ids (db (initiate_call_async call_id result now provider end_now w)) = ids (db w) ∧
  (∀ j, j ≠ call_id →
        get_call j (db (initiate_call_async call_id result now provider end_now w))
        = get_call j (db w)) ∧
  (∀ r, get_call call_id (db w) = Some r →
        ∃ r', get_call call_id
                (db (initiate_call_async call_id result now provider end_now w))
              = Some r' ∧
              ∀ k, k ∈ request_columns → r' !! k = r !! k).
Proof.
  pose proof (initiate_call_async_step call_id result now provider end_now w) as H.
  split; [by eapply table_step_ids|]. split.
  - intros j Hj. unfold get_call. by erewrite table_step_filter.
  - intros r Hr. by eapply table_step_get_call.
Qed.

End frame.

(** ** The routes of [app.py] *)
Section routes.
Import App Lifecycle.

(** [terminate_call] of [app.py], for any call and any state of it: the
    answer is success and the event "terminated" is sent; when a row has
    the identifier, its status becomes "terminated" and its completion
    time is set, whatever the status was, and its other columns stay;
    when no row has it, the table stays as it was. The rows of other
    calls are never touched. *)
Theorem app_terminate_call_effect (call_id : string) (now : Z) (w : world) :
  (terminate_call call_id now w).1 = Success "Call terminated successfully" ∧
  emitted (terminate_call call_id now w).2
    = emitted w ++ [status_event call_id "terminated"] ∧
  ids (db (terminate_call call_id now w).2) = ids (db w) ∧
  (∀ j, j ≠ call_id →
        get_call j (db (terminate_call call_id now w).2) = get_call j (db w)) ∧
  (∀ r, get_call call_id (db w) = Some r →
        ∃ r', get_call call_id (db (terminate_call call_id now w).2) = Some r' ∧
              r' !! "status" = Some (VStr "terminated") ∧
              r' !! "completed_at" = Some (VTime now) ∧
              ∀ k, k ∉ ["status"; "completed_at"] → r' !! k = r !! k) ∧
  (get_call call_id (db w) = None → db (terminate_call call_id now w).2 = db w).
Proof.
  unfold terminate_call. cbn [fst snd emit db emitted].
  assert (table_step call_id (db w)
            (db (db_update call_id
                   [("status", VStr "terminated"); ("completed_at", VTime now)] w)))
    as Hstep by by apply db_update_step.
  split; [done|]. split; [done|]. split; [by eapply table_step_ids|]. split; [|split].
  - intros j Hj. unfold get_call. by erewrite table_step_filter.
  - intros r Hr. rewrite db_update_runs; [|done|done|done].
    eexists. split; [by apply get_call_updated|].
    split; [by apply lookup_union_Some_l|]. split; [by apply lookup_union_Some_l|].
    intros k Hk. apply lookup_union_r, not_elem_of_list_to_map_1. done.
  - intros Hnone. rewrite db_update_runs; [|done|done|done].
    unfold Spec.updated. by apply fmap_has_id_none.
Qed.

Lemma stuck_earlier (now now' : Z) (r : row) :
  now' ≤ now → stuck now' r = true → stuck now r = true.
Proof.
  unfold stuck. intros Hle [H1 H2]%andb_true_iff. rewrite H1. cbn [andb].
  destruct (r !! "created_at") as [[| | | |c]|]; try done.
  apply Z.ltb_lt in H2. apply Z.ltb_lt. lia.
Qed.

Lemma swept_not_stuck (now now' : Z) (r : row) :
  stuck now' (<["completed_at" := VTime now]> (<["status" := VStr "timeout"]> r)) = false.
Proof.
  unfold stuck. rewrite lookup_insert_ne by done. rewrite lookup_insert_eq.
  reflexivity.
Qed.

(** The sweep of [app.py]: a row that is in progress or dialing and older
    than thirty minutes gets the status "timeout" and the completion
    time, and nothing else of it changes; every other row stays as it
    was; no event is sent; the count returned is the number of rows
    changed; and a second sweep, at the same time or an earlier one,
    finds nothing left to do. *)
Theorem app_cleanup_sweeps_once (now : Z) (w : world) :
  emitted (cleanup_stuck_calls now w).2 = emitted w ∧
  ids (db (cleanup_stuck_calls now w).2) = ids (db w) ∧
  (∀ i r, db w !! i = Some r → stuck now r = false →
          db (cleanup_stuck_calls now w).2 !! i = Some r) ∧
  (∀ i r, db w !! i = Some r → stuck now r = true →
          ∃ r', db (cleanup_stuck_calls now w).2 !! i = Some r' ∧ r' ≠ r ∧
                r' !! "status" = Some (VStr "timeout") ∧
                r' !! "completed_at" = Some (VTime now) ∧
                ∀ k, k ∉ ["status"; "completed_at"] → r' !! k = r !! k) ∧
  (cleanup_stuck_calls now w).1 = length (List.filter (stuck now) (db w)) ∧
  (∀ now', now' ≤ now →
           cleanup_stuck_calls now' (cleanup_stuck_calls now w).2
           = (0%nat, (cleanup_stuck_calls now w).2)).
Proof.
  split; [done|]. split; [|split; [|split; [|split; [done|]]]].
  - cbn [cleanup_stuck_calls snd db]. unfold ids. rewrite <- list_fmap_compose.
    apply list_fmap_ext. intros i r _. cbn.
    destruct (stuck now r); [|done]. by rewrite !lookup_insert_ne.
  - intros i r Hi Hs. rewrite (app_cleanup_lookup now w i r Hi). by rewrite Hs.
  - intros i r Hi Hs. rewrite (app_cleanup_lookup now w i r Hi). rewrite Hs.
    eexists. split; [done|]. split; [|split; [|split]].
    + intros Heq. pose proof (swept_not_stuck now now r) as Hn. congruence.
    + rewrite lookup_insert_ne by done. by rewrite lookup_insert_eq.
    + by rewrite lookup_insert_eq.
    + intros k Hk. rewrite !lookup_insert_ne; [done|..];
        intros <-; apply Hk; [left|right; left].
  - intros now' Hle. unfold cleanup_stuck_calls. cbn [snd db emitted].
    set (sweep := λ r : row, if stuck now r then _ else r).
    assert (∀ r, stuck now' (sweep r) = false) as Hclean.
    { intros r. unfold sweep. destruct (stuck now r) eqn:E.
      - apply swept_not_stuck.
      - destruct (stuck now' r) eqn:E'; [|done].
        apply (stuck_earlier now) in E'; [congruence|done]. }
    f_equal.
    + induction (db w) as [|r t IH]; [done|]. rewrite fmap_cons. cbn [List.filter].
      by rewrite Hclean.
    + f_equal. rewrite <- list_fmap_compose.
      apply list_fmap_ext. intros i r _. cbn. by rewrite Hclean.
Qed.

Lemma first_missing_spec (data : gmap string string) (fields : list string) :
  match first_missing data fields with
  | Some f => f ∈ fields ∧ Py.truthy (data !! f) = false
  | None => ∀ f, f ∈ fields → Py.truthy (data !! f) = true
  end.
Proof.
  induction fields as [|f fs IH]; cbn [first_missing].
  - intros f Hf. by apply elem_of_nil in Hf.
  - destruct (Py.truthy (data !! f)) eqn:E; cbn [negb].
    + destruct (first_missing data fs) as [g|].
      * destruct IH. split; [by right|done].
      * intros g [->|Hg]%elem_of_cons; [done|by apply IH].
    + split; [left|done].
Qed.

(** [POST /api/calls] of [app.py] accepts a request exactly when its four
    required fields are non-empty and the fresh identifier is no primary
    key yet; a request with an empty required field gets 400 and the name
    of one such field; an identifier that exists gets 500; and a request
    that is not accepted changes nothing and starts no thread. *)
Theorem app_create_call_accepts_exactly (uuid : string) (now : Z)
    (data : gmap string string) (w : world) :
  ((create_call uuid now data w).1.1 = Created uuid ↔
   (∀ f, f ∈ required_fields → Py.truthy (data !! f) = true) ∧
   Some (VStr uuid) ∉ ids (db w)) ∧
  ((∃ f, f ∈ required_fields ∧ Py.truthy (data !! f) = false) →
   ∃ f, f ∈ required_fields ∧ Py.truthy (data !! f) = false ∧
        create_call uuid now data w
        = (Failure 400 ("Missing required field: " +:+ f), w, None)) ∧
  ((∀ f, f ∈ required_fields → Py.truthy (data !! f) = true) →
   Some (VStr uuid) ∈ ids (db w) →
   create_call uuid now data w
   = (Failure 500 "Failed to save call to database", w, None)) ∧
  ((create_call uuid now data w).1.1 ≠ Created uuid →
   (create_call uuid now data w).1.2 = w ∧ (create_call uuid now data w).2 = None).
Proof.
  pose proof (first_missing_spec data required_fields) as Hspec.
  unfold create_call.
  destruct (first_missing data required_fields) as [f|] eqn:Hf.
  - destruct Hspec as [Hin Hfalse]. cbn [fst snd]. split; [|split; [|split]].
    + split; [done|]. intros [Hall _]. rewrite Hall in Hfalse; done.
    + intros _. by exists f.
    + intros Hall. rewrite Hall in Hfalse; done.
    + done.
  - unfold save_call.
    destruct (new_call_data_lookups uuid data) as (-> & -> & -> & -> & -> & _).
    rewrite (bool_decide_false (VNone ∈ _)); last first.
    { unfold field. intros H.
      repeat (apply elem_of_cons in H as [H|H]; [discriminate|]).
      by apply elem_of_nil in H. }
    match goal with
    | |- context [existsb overflows ?l] =>
        assert (existsb overflows l = false) as -> by reflexivity
    end.
    rewrite (bool_decide_false (VStr uuid = VNone)) by done.
    cbn [orb negb andb as_text].
    destruct (decide (Some (VStr uuid) ∈ ids (db w))) as [Hold|Hfresh].
    + rewrite bool_decide_true by done. cbn [negb fst snd].
      split; [|split; [|split]]; [|..|done].
      * split; [done|]. by intros [_ ?].
      * intros (g & Hg & Hgf). rewrite Hspec in Hgf; done.
      * done.
    + rewrite bool_decide_false by done. cbn [negb fst snd].
      split; [|split; [|split]]; [done|..|done].
      * intros (g & Hg & Hgf). rewrite Hspec in Hgf; done.
      * done.
Qed.

End routes.

(** ** The runs of [monitor_call_progress] *)
Section monitor_runs.
Import App Lifecycle.

Lemma world_eta (w : world) : {| db := db w; emitted := emitted w |} = w.
Proof. by destruct w. Qed.

Lemma db_update_eq (call_id : string) (l : list (string * value)) (w : world) :
  l ≠ [] → Spec.plain_keys l = true → Spec.kept_as_given l = true →
  db_update call_id l w
  = {| db := Spec.updated call_id l (db w); emitted := emitted w |}.
Proof.
  intros Hne Hkeys Hvals. unfold db_update. f_equal.
  exact (db_update_runs call_id l w Hne Hkeys Hvals).
Qed.

Lemma last_read_cons (prev : option string) (s : string) (l : list string) :
  last_read prev (s :: l) = last_read (Some s) l.
Proof.
  destruct l as [|s' l]; [done|]. unfold last_read.
  change (last (s :: s' :: l)) with (last (s' :: l)).
  destruct (last (s' :: l)) eqn:E; [done|]. by apply last_None in E.
Qed.

Lemma last_read_app (prev : option string) (l1 l2 : list string) :
  last_read prev (l1 ++ l2) = last_read (last_read prev l1) l2.
Proof.
  revert prev. induction l1 as [|s l1 IH]; intros prev; [done|].
  cbn [app]. by rewrite !last_read_cons, IH.
Qed.

Lemma changes_app (prev : option string) (l1 l2 : list string) :
  changes prev (l1 ++ l2) = changes prev l1 ++ changes (last_read prev l1) l2.
Proof.
  revert prev. induction l1 as [|s l1 IH]; intros prev; [done|].
  cbn [app changes]. rewrite last_read_cons.
  destruct (decide (Some s = prev)) as [<-|Hne].
  - rewrite bool_decide_true by done. apply IH.
  - rewrite bool_decide_false by done. cbn [app]. by rewrite IH.
Qed.

Lemma changes_head (prev : option string) (l : list string) :
  head (changes prev l) ≠ prev ∨ changes prev l = [].
Proof.
  induction l as [|s l IH]; [by right|]. cbn [changes].
  destruct (decide (Some s = prev)) as [<-|Hne].
  - by rewrite bool_decide_true.
  - rewrite bool_decide_false by done. by left.
Qed.

Lemma changes_no_repeat (prev : option string) (l : list string) :
  no_repeat (changes prev l).
Proof.
  revert prev. induction l as [|s l IH]; intros prev; [done|]. cbn [changes].
  destruct (bool_decide (Some s = prev)); [apply IH|].
  pose proof (IH (Some s)) as Hn. destruct (changes_head (Some s) l) as [Hh|He].
  - destruct (changes (Some s) l) as [|b l']; [done|]. cbn in *.
    split; [congruence|done].
  - by rewrite He.
Qed.

Lemma read_statuses_cons (provider : nat → poll) (from n : nat) :
  read_statuses provider from (S n)
  = read_status (provider (S from)) ++ read_statuses provider (S from) n.
Proof. reflexivity. Qed.

Lemma read_statuses_snoc (provider : nat → poll) (from n : nat) :
  read_statuses provider from (S n)
  = read_statuses provider from n ++ read_status (provider (S (from + n))).
Proof.
  unfold read_statuses. rewrite seq_S, bind_app. cbn. by rewrite app_nil_r.
Qed.

(** A pass after which the loop goes on: nothing is written, and the
    status read is sent when it differs from the last one read. *)
Lemma monitor_iter_quiet (call_id : string) (p : poll) (m : monitor) (w : world) :
  Spec.keeps_polling (S (poll_count m)) p = true →
  monitor_iter call_id p m w
  = (Continue,
     {| poll_count := S (poll_count m);
        last_status := last_read (last_status m) (read_status p) |},
     {| db := db w;
        emitted := emitted w ++
          (status_event call_id <$> changes (last_status m) (read_status p)) |}).
Proof.
  unfold Spec.keeps_polling, monitor_iter, read_status. intros H.
  destruct (p_status p) as [msg|calls duration].
  - apply Nat.leb_le in H.
    destruct (3 <? S (poll_count m))%nat eqn:E; [apply Nat.ltb_lt in E; lia|].
    cbn. by rewrite app_nil_r, world_eta.
  - apply andb_true_iff in H as [H1 H2].
    apply negb_true_iff in H1, H2. rewrite H1, H2. cbn [changes last_read last].
    destruct (bool_decide (Some (extract_status calls) = last_status m)) eqn:E;
      cbn [negb fmap list_fmap].
    + apply bool_decide_eq_true in E. rewrite <- E.
      by rewrite app_nil_r, world_eta.
    + done.
Qed.

(** [n] passes after which the loop goes on. *)
Lemma monitor_loop_quiet (call_id : string) (provider : nat → poll) (n : nat) :
  ∀ (fuel : nat) (m : monitor) (w : world),
  (∀ j, (poll_count m < j ≤ poll_count m + n)%nat →
        Spec.keeps_polling j (provider j) = true) →
  (poll_count m + n ≤ max_polls)%nat → (n ≤ fuel)%nat →
  monitor_loop fuel call_id provider m w
  = monitor_loop (fuel - n) call_id provider
      {| poll_count := poll_count m + n;
         last_status :=
           last_read (last_status m) (read_statuses provider (poll_count m) n) |}
      {| db := db w;
         emitted := emitted w ++
           (status_event call_id <$>
              changes (last_status m) (read_statuses provider (poll_count m) n)) |}.
Proof.
  induction n as [|n IH]; intros fuel m w Hq Hmax Hfuel.
  - rewrite Nat.sub_0_r, Nat.add_0_r. cbn. rewrite app_nil_r, world_eta.
    by destruct m.
  - destruct fuel as [|fuel]; [lia|]. cbn [monitor_loop].
    assert ((poll_count m <? max_polls)%nat = true) as -> by (apply Nat.ltb_lt; lia).
    rewrite monitor_iter_quiet by (apply Hq; lia).
    rewrite IH; cbn [poll_count last_status db emitted]; [|intros j Hj; apply Hq; lia|lia..].
    rewrite read_statuses_cons, last_read_app, changes_app, fmap_app, app_assoc.
    cbn [Nat.sub]. do 2 f_equal. lia.
Qed.

Lemma quiet_reads_not_finished (provider : nat → poll) (from n : nat)
    (prev : option string) :
  prev ∉ Some <$> finished_statuses →
  (∀ j, (from < j ≤ from + n)%nat → Spec.keeps_polling j (provider j) = true) →
  last_read prev (read_statuses provider from n) ∉ Some <$> finished_statuses.
Proof.
  intros Hprev. induction n as [|n IH]; intros Hq; [done|].
  rewrite read_statuses_snoc, last_read_app.
  specialize (Hq (S (from + n))) as Hlast. 
  unfold Spec.keeps_polling, read_status in *.
  destruct (p_status (provider (S (from + n)))) as [msg|calls d].
  - cbn. apply IH. intros j Hj. apply Hq. lia.
  - change (last_read _ [extract_status calls]) with (Some (extract_status calls)).
    intros (s & [= <-] & Hs)%list_elem_of_fmap.
    rewrite bool_decide_true in Hlast by done. cbn in Hlast.
    assert (false = true) by (apply Hlast; lia). done.
Qed.

(** The first poll among [1..n] after which the loop does not go on. *)
Lemma first_loud_poll (provider : nat → poll) (n : nat) :
  (∀ j, (1 ≤ j ≤ n)%nat → Spec.keeps_polling j (provider j) = true) ∨
  ∃ k, (1 ≤ k ≤ n)%nat ∧
       (∀ j, (1 ≤ j < k)%nat → Spec.keeps_polling j (provider j) = true) ∧
       Spec.keeps_polling k (provider k) = false.
Proof.
  induction n as [|n [IH|(k & Hk & Hpre & Hloud)]].
  - left. intros j Hj. lia.
  - destruct (Spec.keeps_polling (S n) (provider (S n))) eqn:E.
    + left. intros j Hj. destruct (decide (j = S n)) as [->|]; [done|]. apply IH. lia.
    + right. exists (S n). split; [lia|]. split; [|done].
      intros j Hj. apply IH. lia.
  - right. exists k. split; [lia|done].
Qed.


Lemma db_update_finished (call_id : string) (p : poll) (s : string) (w : world) :
  db_update call_id (Spec.finished_updates call_id p s) w
  = {| db := finished_table call_id p s (db w); emitted := emitted w |}.
Proof.
  unfold db_update, finished_table. f_equal.
  change (db (db_update call_id (Spec.finished_updates call_id p s) w)
          = if Spec.duration_fits p
            then Spec.updated call_id (Spec.finished_updates call_id p s) (db w)
            else db w).
  destruct (Spec.duration_fits p) eqn:Hfit.
  - apply db_update_runs; [done|done|by apply finished_updates_kept].
  - apply db_update_overflows; [|done|by apply finished_updates_overflow].
    change (NoDup ["status"; "completed_at"; "duration"; "transcript"; "success"]).
    apply (bool_decide_unpack _). by vm_compute.
Qed.

Lemma monitor_iter_finished_full (call_id : string) (p : poll) (m : monitor)
    (w : world) (s : string) :
  Spec.reads_status s p → s ∈ finished_statuses →
  monitor_iter call_id p m w
  = (Break, {| poll_count := S (poll_count m); last_status := Some s |},
     {| db := finished_table call_id p s (db w);
        emitted := (emitted w ++ (status_event call_id <$> changes (last_status m) [s]))
                   ++ [status_event call_id s] |}).
Proof.
  intros (calls & duration & Hp & Hs) Hfin.
  pose proof (db_update_finished call_id p s) as Hup.
  unfold monitor_iter. unfold Spec.finished_updates in Hup.
  rewrite Hp in *. rewrite Hs. rewrite (bool_decide_true (s ∈ _)) by done.
  cbn [changes].
  destruct (bool_decide (Some s = last_status m)) eqn:E; cbn [negb].
  - apply bool_decide_eq_true in E. rewrite <- E.
    rewrite Hup. unfold emit. cbn [db emitted fmap list_fmap].
    by rewrite app_nil_r.
  - rewrite Hup. unfold emit. by cbn [db emitted fmap list_fmap].
Qed.

Lemma monitor_iter_queue_full (call_id : string) (p : poll) (m : monitor) (w : world) :
  Spec.reads_status "queue" p → (6 ≤ S (poll_count m))%nat →
  monitor_iter call_id p m w
  = (Break, {| poll_count := S (poll_count m); last_status := Some "queue" |},
     {| db := Spec.updated call_id (Spec.stuck_in_queue_updates p) (db w);
        emitted := (emitted w ++
                    (status_event call_id <$> changes (last_status m) ["queue"]))
                   ++ [status_event call_id "failed"] |}).
Proof.
  intros (calls & duration & Hp & Hs) Hsix. unfold monitor_iter.
  rewrite Hp, Hs.
  assert (bool_decide ("queue" ∈ finished_statuses) = false) as -> by reflexivity.
  rewrite (bool_decide_true ("queue" = "queue")) by done.
  apply Nat.leb_le in Hsix. rewrite Hsix. cbn [andb changes].
  destruct (bool_decide (Some "queue" = last_status m)) eqn:E; cbn [negb].
  - apply bool_decide_eq_true in E. rewrite <- E.
    rewrite db_update_eq by done. unfold emit. cbn [db emitted fmap list_fmap].
    by rewrite app_nil_r.
  - rewrite db_update_eq by done. unfold emit. by cbn [db emitted fmap list_fmap].
Qed.

Lemma monitor_finish_timeout (call_id : string) (now : Z) (m : monitor) (w : world) :
  (max_polls ≤ poll_count m)%nat → last_status m ∉ Some <$> finished_statuses →
  monitor_finish call_id now m w
  = {| db := Spec.updated call_id (timeout_updates now) (db w);
       emitted := emitted w ++ [status_event call_id "timeout"] |}.
Proof.
  intros Hc Hl. unfold monitor_finish.
  apply Nat.leb_le in Hc. rewrite Hc. rewrite bool_decide_false by done.
  cbn [andb negb]. by rewrite db_update_eq.
Qed.

Lemma monitor_finish_early (call_id : string) (now : Z) (m : monitor) (w : world) :
  (poll_count m < max_polls)%nat → monitor_finish call_id now m w = w.
Proof.
  intros Hc. unfold monitor_finish.
  apply Nat.leb_gt in Hc. by rewrite Hc.
Qed.

Lemma monitor_finish_finished (call_id : string) (now : Z) (m : monitor) (w : world)
    (s : string) :
  last_status m = Some s → s ∈ finished_statuses →
  monitor_finish call_id now m w = w.
Proof.
  intros Hl Hs. unfold monitor_finish. rewrite Hl.
  rewrite (bool_decide_true (Some s ∈ _)); [by rewrite andb_false_r|].
  apply list_elem_of_fmap. by exists s.
Qed.

(** Every run of [monitor_call_progress] has one of four shapes: all
    twelve polls let the loop go on and the timeout is marked; or the
    polls before poll [k] do, and poll [k] is a provider error after the
    third poll, or reads a finished status, or reads "queue" from the
    sixth poll on. In each the result of the run is given in full. *)
Lemma monitor_call_progress_cases (call_id : string) (provider : nat → poll)
    (end_now : Z) (w : world) :
  ((∀ j, (1 ≤ j ≤ max_polls)%nat → Spec.keeps_polling j (provider j) = true) ∧
   monitor_call_progress call_id provider end_now w
   = ({| poll_count := max_polls;
         last_status := last_read None (read_statuses provider 0 max_polls) |},
      {| db := Spec.updated call_id (timeout_updates end_now) (db w);
         emitted := sent call_id provider w max_polls
                    ++ [status_event call_id "timeout"] |})) ∨
  ∃ k, (1 ≤ k ≤ max_polls)%nat ∧
       (∀ j, (1 ≤ j < k)%nat → Spec.keeps_polling j (provider j) = true) ∧
       ((∃ msg, p_status (provider k) = StatusError msg ∧ (3 < k)%nat ∧
                monitor_call_progress call_id provider end_now w
                = ({| poll_count := k;
                      last_status := last_read None (read_statuses provider 0 (k - 1)) |},
                   if bool_decide (k = max_polls)
                   then {| db := Spec.updated call_id (timeout_updates end_now) (db w);
                           emitted := sent call_id provider w (k - 1)
                                      ++ [status_event call_id "timeout"] |}
                   else {| db := db w; emitted := sent call_id provider w (k - 1) |})) ∨
        (∃ s, Spec.reads_status s (provider k) ∧ s ∈ finished_statuses ∧
              monitor_call_progress call_id provider end_now w
              = ({| poll_count := k; last_status := Some s |},
                 {| db := finished_table call_id (provider k) s (db w);
                    emitted := sent call_id provider w k ++ [status_event call_id s] |})) ∨
        (Spec.reads_status "queue" (provider k) ∧ (6 ≤ k)%nat ∧
         monitor_call_progress call_id provider end_now w
         = ({| poll_count := k; last_status := Some "queue" |},
            if bool_decide (k = max_polls)
            then {| db := Spec.updated call_id (timeout_updates end_now)
                            (Spec.updated call_id
                               (Spec.stuck_in_queue_updates (provider k)) (db w));
                    emitted := sent call_id provider w k
                               ++ [status_event call_id "failed";
                                   status_event call_id "timeout"] |}
            else {| db := Spec.updated call_id
                            (Spec.stuck_in_queue_updates (provider k)) (db w);
                    emitted := sent call_id provider w k
                               ++ [status_event call_id "failed"] |}))).
Proof.
  unfold monitor_call_progress, sent.
  destruct (first_loud_poll provider max_polls) as [Hall|(k & Hk & Hpre & Hloud)].
  - left. split; [done|].
    rewrite (monitor_loop_quiet call_id provider max_polls); cbn [poll_count];
      [|intros j Hj; apply Hall; lia|lia..].
    rewrite Nat.sub_diag. cbn [monitor_loop last_status db emitted].
    rewrite monitor_finish_timeout; [done|done|]. cbn [last_status].
    apply quiet_reads_not_finished; [|intros j Hj; apply Hall; lia].
    by intros (s & [=] & _)%list_elem_of_fmap.
  - right. exists k. split; [done|]. split; [done|].
    rewrite (monitor_loop_quiet call_id provider (k - 1)); cbn [poll_count];
      [|intros j Hj; apply Hpre; lia|lia..].
    cbn [last_status db emitted].
    destruct (max_polls - (k - 1))%nat as [|fuel] eqn:Ef; [lia|].
    cbn [monitor_loop poll_count].
    assert ((0 + (k - 1) <? max_polls)%nat = true) as -> by (apply Nat.ltb_lt; lia).
    replace (S (0 + (k - 1))) with k by lia.
    set (m1 := {| poll_count := (0 + (k - 1))%nat; last_status := _ |}).
    set (w1 := {| db := db w; emitted := _ |}).
    assert (S (poll_count m1) = k) as Hm1 by (cbn; lia).
    assert (last_status m1 ∉ Some <$> finished_statuses) as Hnf.
    { cbn [m1 last_status]. apply quiet_reads_not_finished; [|intros j Hj; apply Hpre; lia].
      by intros (s & [=] & _)%list_elem_of_fmap. }
    assert (read_statuses provider 0 k
            = read_statuses provider 0 (k - 1) ++ read_status (provider k)) as Hsnoc.
    { destruct k as [|k']; [lia|]. rewrite read_statuses_snoc.
      by replace (S k' - 1)%nat with k' by lia. }
    unfold Spec.keeps_polling in Hloud.
    destruct (p_status (provider k)) as [msg|calls duration] eqn:Hp.
    + left. exists msg. apply Nat.leb_gt in Hloud. split; [done|]. split; [lia|].
      unfold monitor_iter. rewrite Hp, Hm1.
      assert ((3 <? k)%nat = true) as -> by (apply Nat.ltb_lt; lia).
      cbn [fst snd]. f_equal.
      destruct (decide (k = max_polls)) as [->|Hne].
      * rewrite bool_decide_true by done. by rewrite monitor_finish_timeout.
      * rewrite bool_decide_false by done. apply monitor_finish_early. cbn. lia.
    + right.
      assert (Spec.reads_status (extract_status calls) (provider k)) as Hreads
        by by eexists _, _.
      assert (read_status (provider k) = [extract_status calls]) as Hread
        by (unfold read_status; by rewrite Hp).
      destruct (decide (extract_status calls ∈ finished_statuses)) as [Hfin|Hnfin].
      * left. exists (extract_status calls). split; [done|]. split; [done|].
        rewrite (monitor_iter_finished_full call_id (provider k) m1 w1 _ Hreads Hfin).
        rewrite Hm1. cbn [fst snd].
        rewrite (monitor_finish_finished _ _ _ _ (extract_status calls)) by done.
        do 3 f_equal. cbn [w1 m1 emitted last_status].
        by rewrite Hsnoc, Hread, changes_app, fmap_app, app_assoc.
      * right. rewrite (bool_decide_false _ Hnfin) in Hloud. cbn [negb andb] in Hloud.
        apply negb_false_iff, andb_true_iff in Hloud as [Hq Hsix].
        apply bool_decide_eq_true in Hq. apply Nat.leb_le in Hsix.
        rewrite Hq in Hreads, Hread. split; [done|]. split; [done|].
        rewrite (monitor_iter_queue_full call_id (provider k) m1 w1 Hreads) by lia.
        rewrite Hm1. cbn [fst snd]. f_equal.
        assert (∀ tl, (emitted w1 ++
                       (status_event call_id <$> changes (last_status m1) ["queue"])) ++ tl
                      = (emitted w ++ (status_event call_id <$>
                           changes None (read_statuses provider 0 k))) ++ tl) as Hev.
        { intros tl. f_equal. cbn [w1 m1 emitted last_status].
          by rewrite Hsnoc, Hread, changes_app, fmap_app, app_assoc. }
        destruct (decide (k = max_polls)) as [->|Hne].
        -- rewrite bool_decide_true by done.
           rewrite monitor_finish_timeout; cbn [poll_count last_status db emitted];
             [|done|intros (s & [= <-] & Hs)%list_elem_of_fmap; apply Hnfin; by rewrite Hq].
           f_equal. rewrite Hev. by rewrite <- app_assoc.
        -- rewrite bool_decide_false by done.
           rewrite monitor_finish_early by (cbn; lia). f_equal. apply Hev.
Qed.

End monitor_runs.

(** ** The events of a run *)
Section monitor_events.
Import App Lifecycle.

(** Every run of [monitor_call_progress] sends the statuses read by its
    first [n] polls, each only when it differs from the one read before
    it, so that no two neighbours among them are equal; and after them
    at most two more events: nothing, "timeout", "failed", "failed" and
    then "timeout", or the finished status once more. [n] is the number
    of polls made, or one less when the last poll is a provider error. *)
Theorem monitor_sends_status_changes (call_id : string) (provider : nat → poll)
    (end_now : Z) (w : world) :
  ∃ (n : nat) (tail : list string),
    (n ≤ poll_count (monitor_call_progress call_id provider end_now w).1 ≤ S n)%nat ∧
    (n ≤ max_polls)%nat ∧
    emitted (monitor_call_progress call_id provider end_now w).2
    = emitted w ++
      (status_event call_id <$> (changes None (read_statuses provider 0 n) ++ tail)) ∧
    no_repeat (changes None (read_statuses provider 0 n)) ∧
    (tail ∈ [[]; ["timeout"]; ["failed"]; ["failed"; "timeout"]] ∨
     ∃ s, s ∈ finished_statuses ∧ tail = [s]).
Proof.
  destruct (monitor_call_progress_cases call_id provider end_now w)
    as [[_ ->]|(k & Hk & _ & [(msg & _ & _ & ->)|[(s & _ & Hs & ->)|(_ & _ & ->)]])].
  - exists max_polls, ["timeout"]. split; [cbn; lia|]. split; [done|]. split.
    { unfold sent. cbn [snd emitted]. by rewrite fmap_app, app_assoc. }
    split; [apply changes_no_repeat|]. left. right. left.
  - destruct (bool_decide (k = max_polls)).
    + exists (k - 1)%nat, ["timeout"]. split; [cbn; lia|]. split; [lia|]. split.
      { unfold sent. cbn [snd emitted]. by rewrite fmap_app, app_assoc. }
      split; [apply changes_no_repeat|]. left. right. left.
    + exists (k - 1)%nat, []. split; [cbn; lia|]. split; [lia|]. split.
      { unfold sent. cbn [snd emitted]. by rewrite app_nil_r. }
      split; [apply changes_no_repeat|]. left. left.
  - exists k, [s]. split; [cbn; lia|]. split; [lia|]. split.
    { unfold sent. cbn [snd emitted]. by rewrite fmap_app, app_assoc. }
    split; [apply changes_no_repeat|]. right. by exists s.
  - destruct (bool_decide (k = max_polls)).
    + exists k, ["failed"; "timeout"]. split; [cbn; lia|]. split; [lia|]. split.
      { unfold sent. cbn [snd emitted]. by rewrite fmap_app, app_assoc. }
      split; [apply changes_no_repeat|]. left. do 3 right. left.
    + exists k, ["failed"]. split; [cbn; lia|]. split; [lia|]. split.
      { unfold sent. cbn [snd emitted]. by rewrite fmap_app, app_assoc. }
      split; [apply changes_no_repeat|]. left. do 2 right. left.
Qed.

End monitor_events.
